(** * The article data pipeline: cleaner.py and validator.py

    A shallow embedding of the two modules of the repository:

    - [cleaner.py]: [clean_text], [parse_date_to_iso], [clean_article],
      [clean];
    - [validator.py]: [_strip], [validate_record], [_is_present],
      [validate], [write_report], [save_valid_only].

    Python strings are lists of Unicode code points, Python values are the
    values [json.load] produces, and a call that can raise returns a
    [result].  The parts of the CPython runtime that the two modules call
    and that are tables, settings or version dependent (the HTML5 entity
    table, the ISO 8601 parser, the Unicode decimal digits, [repr], the
    limit on the digits of an integer conversion) are the fields of the
    class [Runtime]; everything else is defined here and computes. *)

From Stdlib Require Import ZArith List Bool String Ascii Lia.
From Stdlib Require Import Sorted Permutation.
From Stdlib Require Import PrimFloat SpecFloat FloatOps Uint63.
From Stdlib Require DecimalString.
Import ListNotations.

Set Warnings "-register-all".
Open Scope Z_scope.

(* ===================================================================== *)
(** ** Python strings *)
(* ===================================================================== *)

(** A [str] is its sequence of code points. *)
Definition pystr := list Z.

(** An ASCII literal of the source, as a [pystr]. *)
Definition py (s : string) : pystr :=
  map (fun a => Z.of_N (N_of_ascii a)) (list_ascii_of_string s).

Definition pystr_eqb (a b : pystr) : bool :=
  if list_eq_dec Z.eq_dec a b then true else false.

(** [len(s)] *)
Definition len {A} (l : list A) : Z := Z.of_nat (List.length l).

(** [c in s] for a one-character [c]. *)
Definition contains (s : pystr) (c : Z) : bool := existsb (Z.eqb c) s.

(** [s.startswith(p)] *)
Fixpoint startswith (s p : pystr) : bool :=
  match p, s with
  | [], _ => true
  | _ :: _, [] => false
  | a :: p', b :: s' => (a =? b) && startswith s' p'
  end.

(** [s[i:j]] for [0 <= i <= j]. *)
Definition slice (s : pystr) (i j : nat) : pystr := firstn (j - i) (skipn i s).

(** [str.isspace] on one character, which is also the class [\s] of [re]
    on [str] patterns (CPython's [_PyUnicode_IsWhitespace]). *)
Definition isspace (c : Z) : bool :=
  ((9 <=? c) && (c <=? 13)) || ((28 <=? c) && (c <=? 32))
  || (c =? 133) || (c =? 160) || (c =? 5760)
  || ((8192 <=? c) && (c <=? 8202))
  || (c =? 8232) || (c =? 8233) || (c =? 8239) || (c =? 8287) || (c =? 12288).

Fixpoint lstrip (s : pystr) : pystr :=
  match s with
  | [] => []
  | c :: rest => if isspace c then lstrip rest else s
  end.

Fixpoint rstrip (s : pystr) : pystr :=
  match s with
  | [] => []
  | c :: rest =>
      match rstrip rest with
      | [] => if isspace c then [] else [c]
      | r => c :: r
      end
  end.

(** [s.strip()] *)
Definition strip (s : pystr) : pystr := rstrip (lstrip s).

(** [s.replace(old, new)] for a one-character [old]. *)
Definition replace (old : Z) (new : pystr) (s : pystr) : pystr :=
  flat_map (fun c => if c =? old then new else [c]) s.

(** [str(n)] for an [int]. *)
Definition str_of_int (z : Z) : pystr :=
  py (DecimalString.NilZero.string_of_int (Z.to_int z)).

(** [sep.join(parts)] *)
Fixpoint join (sep : pystr) (parts : list pystr) : pystr :=
  match parts with
  | [] => []
  | [p] => p
  | p :: rest => p ++ sep ++ join sep rest
  end.

(** Comparison of two [str] ([<] and [==] of Python): lexicographic on the
    code points. *)
Fixpoint pystr_compare (a b : pystr) : comparison :=
  match a, b with
  | [], [] => Eq
  | [], _ :: _ => Lt
  | _ :: _, [] => Gt
  | x :: a', y :: b' =>
      match x ?= y with
      | Eq => pystr_compare a' b'
      | c => c
      end
  end.

(* ===================================================================== *)
(** ** Regular-expression substitution *)
(* ===================================================================== *)

(** [re.sub(pattern, repl, s)]: the string is scanned from the left; where
    the pattern matches, the match is replaced and the scan goes on after
    it, and where it does not, the character is kept.  A pattern is given
    by its match at the head of the rest of the string: the length of the
    match and its replacement.  None of the patterns used here matches the
    empty string.  [skip] counts the characters of the current match that
    are still to be dropped. *)
Fixpoint re_sub_from (m : pystr -> option (nat * pystr)) (skip : nat)
  (s : pystr) : pystr :=
  match s with
  | [] => []
  | c :: rest =>
      match skip with
      | S k => re_sub_from m k rest
      | O =>
          match m s with
          | Some (S k, repl) => repl ++ re_sub_from m k rest
          | _ => c :: re_sub_from m O rest
          end
      end
  end.

Definition re_sub (m : pystr -> option (nat * pystr)) (s : pystr) : pystr :=
  re_sub_from m O s.

(** Length of the longest prefix of [s] whose characters satisfy [p]. *)
Fixpoint span (p : Z -> bool) (s : pystr) : nat :=
  match s with
  | c :: rest => if p c then S (span p rest) else O
  | [] => O
  end.

(** The pattern [<[^>]+>] at the head of [s]: a [<], one or more
    characters other than [>], and a [>]. *)
Definition tag_match (s : pystr) : option (nat * pystr) :=
  match s with
  | c :: rest =>
      if c =? 60 then
        let n := span (fun c => negb (c =? 62)) rest in
        match n, skipn n rest with
        | S _, c' :: _ => if c' =? 62 then Some (S (S n), []) else None
        | _, _ => None
        end
      else None
  | [] => None
  end.

(** The pattern [\s+] at the head of [s], replaced with one space. *)
Definition ws_match (s : pystr) : option (nat * pystr) :=
  match span isspace s with
  | O => None
  | n => Some (n, [32])
  end.

(* ===================================================================== *)
(** ** Python values, exceptions *)
(* ===================================================================== *)

(** The values of [json.load]: [None], [bool], [int], [float], [str],
    [list], and [dict] with [str] keys in insertion order.  [json.load]
    reads an integer through [int], so under the limit of the runtime on
    integer conversions (see [int_max_str_digits] below) it raises on a
    longer literal and hands over no such integer: [str(n)] on the
    integers of these values raises nothing, and is modelled so. *)
Inductive pyval : Type :=
| VNone
| VBool (b : bool)
| VInt (z : Z)
| VFloat (f : float)
| VStr (s : pystr)
| VList (l : list pyval)
| VDict (d : list (pystr * pyval)).

Inductive exn : Type :=
| AttributeError
| IndexError
| ValueError
| TypeError
| ZeroDivisionError.

Inductive result (A : Type) : Type :=
| Ok (a : A)
| Raise (e : exn).
Arguments Ok {A} a.
Arguments Raise {A} e.

Definition bind {A B} (r : result A) (k : A -> result B) : result B :=
  match r with
  | Ok a => k a
  | Raise e => Raise e
  end.

Notation "x <- r ;; k" := (bind r (fun x => k))
  (at level 61, r at next level, right associativity).
Notation "' p <- r ;; k" := (bind r (fun p => k))
  (at level 61, p pattern, r at next level, right associativity).

(** [try: body  except (ValueError, TypeError): pass], followed by [next]:
    a result of [body] is returned, one of the two exceptions goes on with
    [next], any other exception propagates. *)
Definition try_except_value_type {A} (body next : result A) : result A :=
  match body with
  | Ok a => Ok a
  | Raise ValueError | Raise TypeError => next
  | Raise e => Raise e
  end.

(** [[f(a) for a in l]] *)
Fixpoint map_result {A B} (f : A -> result B) (l : list A) : result (list B) :=
  match l with
  | [] => Ok []
  | a :: rest =>
      b <- f a ;;
      bs <- map_result f rest ;;
      Ok (b :: bs)
  end.

(** Lookup in a [dict]. *)
Fixpoint dict_lookup (d : list (pystr * pyval)) (k : pystr) : option pyval :=
  match d with
  | [] => None
  | (k', v) :: rest => if pystr_eqb k' k then Some v else dict_lookup rest k
  end.

(** [obj.get(key, default)]: only a [dict] has the method. *)
Definition get_default (obj : pyval) (key : pystr) (default : pyval)
  : result pyval :=
  match obj with
  | VDict d =>
      match dict_lookup d key with
      | Some v => Ok v
      | None => Ok default
      end
  | _ => Raise AttributeError
  end.

(** [obj.get(key)] *)
Definition get (obj : pyval) (key : pystr) : result pyval :=
  get_default obj key VNone.

Definition is_dict (v : pyval) : bool :=
  match v with VDict _ => true | _ => false end.

(** [pattern.sub(repl, s)] where [repl] is a function: it is called on
    each match, from the left, and what it raises ends the substitution.
    The pattern gives the length of its match at the head of the rest of
    the string and what [repl] does with the match. *)
Fixpoint re_sub_fn_from (m : pystr -> option (nat * result pystr))
  (skip : nat) (s : pystr) : result pystr :=
  match s with
  | [] => Ok []
  | c :: rest =>
      match skip with
      | S k => re_sub_fn_from m k rest
      | O =>
          match m s with
          | Some (S k, repl) =>
              r <- repl ;;
              t <- re_sub_fn_from m k rest ;;
              Ok (r ++ t)
          | _ =>
              t <- re_sub_fn_from m O rest ;;
              Ok (c :: t)
          end
      end
  end.

Definition re_sub_fn (m : pystr -> option (nat * result pystr)) (s : pystr)
  : result pystr :=
  re_sub_fn_from m O s.

(* ===================================================================== *)
(** ** The runtime *)
(* ===================================================================== *)

(** A [datetime]: its fields, and the offset of its [tzinfo] in
    microseconds east of UTC ([None] for a naive value). *)
Record datetime : Type := mk_datetime {
  year : Z;
  month : Z;
  day : Z;
  hour : Z;
  minute : Z;
  second : Z;
  microsecond : Z;
  utcoffset : option Z
}.

(** What the two modules take from CPython and this development does not
    define:
    - [html5]: the table [html.entities.html5], from a name (without the
      [&], with its [;] where the table has one) to its characters;
    - [fromisoformat]: [datetime.fromisoformat] on a [str], [None] where it
      raises [ValueError] (the accepted grammar depends on the version);
    - [unicode_decimal]: the value of a character of category Nd outside
      ASCII ([unicodedata.decimal]), [None] for any other character;
    - [repr_str]: [str(v)] for a [float], a [list] or a [dict], which
      prints through [repr];
    - [int_max_str_digits]: [sys.get_int_max_str_digits()], the limit on
      the digits of a decimal [str] that [int] converts: 4300 unless the
      interpreter is configured otherwise, [0] for no limit (and on a
      version that has none). *)
Class Runtime : Type := {
  html5 : pystr -> option pystr;
  fromisoformat : pystr -> option datetime;
  unicode_decimal : Z -> option Z;
  repr_str : pyval -> pystr;
  int_max_str_digits : Z
}.

(** [str(v)] *)
Definition str {rt : Runtime} (v : pyval) : pystr :=
  match v with
  | VStr s => s
  | VNone => py "None"
  | VBool true => py "True"
  | VBool false => py "False"
  | VInt z => str_of_int z
  | _ => repr_str v
  end.

(** Truth value of a [str]: [not s] is [is_empty s]. *)
Definition is_empty (s : pystr) : bool :=
  match s with [] => true | _ => false end.

(* ===================================================================== *)
(** ** Floats: [100.0 * n / total] and [round(x, 2)] *)
(* ===================================================================== *)

(** An [int] operand of a [float] operation is converted first.  The
    operands here are counts of list elements, below [2^63]. *)
Definition float_of_int (z : Z) : float := PrimFloat.of_uint63 (Uint63.of_Z z).

(** [x / n] for a [float] [x] and an [int] [n]. *)
Definition truediv (x : float) (n : Z) : result float :=
  if n =? 0 then Raise ZeroDivisionError
  else Ok (PrimFloat.div x (float_of_int n)).

(** [n / d] rounded to the nearest integer, a tie to the even one. *)
Definition round_half_even (n d : Z) : Z :=
  let q := n / d in
  match 2 * (n mod d) ?= d with
  | Lt => q
  | Gt => q + 1
  | Eq => if Z.even q then q else q + 1
  end.

(** [round(x, 2)] as CPython computes it: the exact binary value of [x] is
    rounded to two decimals, a tie to even, and the decimal [k / 100] is
    converted back to the nearest [float]. *)
Definition round2 (x : float) : float :=
  match Prim2SF x with
  | S754_finite s m e =>
      if 0 <=? e then x
      else
        match round_half_even (Zpos m * 100) (2 ^ (- e)) with
        | Zpos k =>
            SF2Prim (SFdiv prec emax (S754_finite s k 0)
                       (S754_finite false 100 0))
        | _ => SF2Prim (S754_zero s)
        end
  | _ => x
  end.

(* ===================================================================== *)
(** ** validator.py *)
(* ===================================================================== *)

Section Validator.
Context {rt : Runtime}.

(** Return stripped string if value is a string, else empty string. *)
Definition _strip (value : pyval) : pystr :=
  match value with
  | VNone => []
  | VStr s => strip s
  | _ => strip (str value)
  end.

(** [errors.append(code)] under [if cond]. *)
Definition append_if (cond : bool) (code : pystr) (errors : list pystr)
  : list pystr :=
  if cond then errors ++ [code] else errors.

(** Validate one record. Returns (is_valid, errors). *)
Definition validate_record (record : pyval) : result (bool * list pystr) :=
  let errors := [] in
  if negb (is_dict record) then Ok (false, [py "invalid_record"])
  else
    t <- get record (py "title") ;;
    let title := _strip t in
    c <- get record (py "content") ;;
    let content := _strip c in
    u <- get record (py "url") ;;
    let url := _strip u in
    let errors := append_if (is_empty title) (py "missing_title") errors in
    let errors := append_if (is_empty content) (py "missing_content") errors in
    let errors := append_if (is_empty url) (py "missing_url") errors in
    let errors :=
      append_if
        (negb (is_empty url)
         && negb (startswith url (py "http://")
                  || startswith url (py "https://")))
        (py "invalid_url") errors in
    let errors :=
      append_if (negb (is_empty content) && (len content <? 50))
        (py "content_too_short") errors in
    let is_valid := len errors =? 0 in
    Ok (is_valid, errors).

(** True if key exists and stripped value is not empty. *)
Definition _is_present (record : pyval) (key : pystr) : result bool :=
  val <- get record key ;;
  Ok (negb (is_empty (_strip val))).

(** The counters of the loop of [validate]; [error_counts] is the
    [Counter], its keys in insertion order. *)
Record tally : Type := mk_tally {
  t_valid : Z;
  t_invalid : Z;
  t_title : Z;
  t_content : Z;
  t_url : Z;
  t_date : Z;
  t_errors : list (pystr * Z)
}.

(** [counter[e] += 1] *)
Fixpoint counter_incr (counter : list (pystr * Z)) (e : pystr)
  : list (pystr * Z) :=
  match counter with
  | [] => [(e, 1)]
  | (k, n) :: rest =>
      if pystr_eqb k e then (k, n + 1) :: rest
      else (k, n) :: counter_incr rest e
  end.

Definition incr_if (cond : bool) (n : Z) : Z := if cond then n + 1 else n.

(** The body of [for record in articles]. *)
Definition validate_step (st : tally) (record : pyval) : result tally :=
  p_title <- _is_present record (py "title") ;;
  p_content <- _is_present record (py "content") ;;
  p_url <- _is_present record (py "url") ;;
  p_date <- _is_present record (py "published") ;;
  '(is_valid, errors) <- validate_record record ;;
  Ok {| t_valid := incr_if is_valid (t_valid st);
        t_invalid := incr_if (negb is_valid) (t_invalid st);
        t_title := incr_if p_title (t_title st);
        t_content := incr_if p_content (t_content st);
        t_url := incr_if p_url (t_url st);
        t_date := incr_if p_date (t_date st);
        t_errors :=
          if is_valid then t_errors st
          else fold_left counter_incr errors (t_errors st) |}.

(** [for x in l: st = body(st, x)] *)
Fixpoint for_each {S A} (body : S -> A -> result S) (l : list A) (st : S)
  : result S :=
  match l with
  | [] => Ok st
  | x :: rest =>
      st' <- body st x ;;
      for_each body rest st'
  end.

(** [round(100.0 * count / total, 2) if total else 0] *)
Definition percent (count total : Z) : result pyval :=
  if negb (total =? 0) then
    q <- truediv (PrimFloat.mul 100 (float_of_int count)) total ;;
    Ok (VFloat (round2 q))
  else Ok (VInt 0).

(** The dict [validate] returns. *)
Record QualityReport : Type := mk_report {
  total_records : Z;
  valid_count : Z;
  invalid_count : Z;
  title_present_count : Z;
  content_present_count : Z;
  url_present_count : Z;
  date_present_count : Z;
  title_percent : pyval;
  content_percent : pyval;
  url_percent : pyval;
  date_percent : pyval;
  error_counts : list (pystr * Z)
}.

(** Validate all records in data (dict with 'articles' list). *)
Definition validate (data : pyval) : result QualityReport :=
  a <- get_default data (py "articles") (VList []) ;;
  let articles := match a with VList l => l | _ => [] end in
  let total := len articles in
  st <- for_each validate_step articles (mk_tally 0 0 0 0 0 0 []) ;;
  title_pct <- percent (t_title st) total ;;
  content_pct <- percent (t_content st) total ;;
  url_pct <- percent (t_url st) total ;;
  date_pct <- percent (t_date st) total ;;
  Ok {| total_records := total;
        valid_count := t_valid st;
        invalid_count := t_invalid st;
        title_present_count := t_title st;
        content_present_count := t_content st;
        url_present_count := t_url st;
        date_present_count := t_date st;
        title_percent := title_pct;
        content_percent := content_pct;
        url_percent := url_pct;
        date_percent := date_pct;
        error_counts := t_errors st |}.

(** The sort key [(-x[1], x[0])] and its order [<]: tuples compare by
    their first components, then by their second. *)
Definition key_lt (a b : pystr * Z) : bool :=
  match - snd a ?= - snd b with
  | Lt => true
  | Gt => false
  | Eq =>
      match pystr_compare (fst a) (fst b) with
      | Lt => true
      | _ => false
      end
  end.

(** [sorted(items, key=...)]: a stable sort, so an item goes before the
    first one that is not smaller. *)
Fixpoint insert_by (lt : pystr * Z -> pystr * Z -> bool) (x : pystr * Z)
  (l : list (pystr * Z)) : list (pystr * Z) :=
  match l with
  | [] => [x]
  | y :: rest => if lt y x then y :: insert_by lt x rest else x :: l
  end.

Definition sorted_by (lt : pystr * Z -> pystr * Z -> bool)
  (l : list (pystr * Z)) : list (pystr * Z) :=
  fold_right (insert_by lt) [] l.

(** The lines above the failure rows. *)
Definition report_head (result : QualityReport) : list pystr :=
  [ py "======================";
    py "DATA QUALITY REPORT";
    py "======================";
    py "Total records processed: " ++ str_of_int (total_records result);
    py "Valid records: " ++ str_of_int (valid_count result);
    py "Invalid records: " ++ str_of_int (invalid_count result);
    py "";
    py "----------------------";
    py "Completeness Summary";
    py "----------------------";
    py "Title completeness: " ++ str (title_percent result) ++ py "%";
    py "Content completeness: " ++ str (content_percent result) ++ py "%";
    py "URL completeness: " ++ str (url_percent result) ++ py "%";
    py "Date completeness: " ++ str (date_percent result) ++ py "%";
    py "";
    py "----------------------";
    py "Common validation failures";
    py "----------------------" ].

(** [f"{code}: {count}"] *)
Definition failure_row (item : pystr * Z) : pystr :=
  fst item ++ py ": " ++ str_of_int (snd item).

Definition report_lines (result : QualityReport) : list pystr :=
  let lines := report_head result in
  let sorted_errors := sorted_by key_lt (error_counts result) in
  lines ++ map failure_row sorted_errors.

(** Write quality_report.txt in the required format: the text written to
    [output_path]. *)
Definition write_report (result : QualityReport) : pystr :=
  join [10] (report_lines result) ++ [10].

End Validator.

(* ===================================================================== *)
(** ** [html.unescape] *)
(* ===================================================================== *)

Definition is_digit (c : Z) : bool := (48 <=? c) && (c <=? 57).

Definition hex_value (c : Z) : option Z :=
  if is_digit c then Some (c - 48)
  else if (97 <=? c) && (c <=? 102) then Some (c - 87)
  else if (65 <=? c) && (c <=? 70) then Some (c - 55)
  else None.

Definition is_hex (c : Z) : bool :=
  match hex_value c with Some _ => true | None => false end.

(** The integer that the digits [s] write in base [base]. *)
Definition int_of_digits (base : Z) (s : pystr) : Z :=
  fold_left
    (fun acc c => acc * base + match hex_value c with Some v => v | None => 0 end)
    s 0.

(** The class [[^\t\n\f <&#;]]. *)
Definition name_char (c : Z) : bool :=
  negb ((c =? 9) || (c =? 10) || (c =? 12) || (c =? 32) || (c =? 60)
        || (c =? 38) || (c =? 35) || (c =? 59)).

Definition _invalid_charrefs : list (Z * pystr) :=
  [ (0, [65533]); (13, [13]); (128, [8364]); (129, [129]); (130, [8218]);
    (131, [402]); (132, [8222]); (133, [8230]); (134, [8224]);
    (135, [8225]); (136, [710]); (137, [8240]); (138, [352]);
    (139, [8249]); (140, [338]); (141, [141]); (142, [381]); (143, [143]);
    (144, [144]); (145, [8216]); (146, [8217]); (147, [8220]);
    (148, [8221]); (149, [8226]); (150, [8211]); (151, [8212]);
    (152, [732]); (153, [8482]); (154, [353]); (155, [8250]); (156, [339]);
    (157, [157]); (158, [382]); (159, [376]) ].

(** [num in _invalid_codepoints], for [num <= 0x10FFFF]. *)
Definition _invalid_codepoints (num : Z) : bool :=
  ((1 <=? num) && (num <=? 8)) || (num =? 11)
  || ((14 <=? num) && (num <=? 31))
  || ((127 <=? num) && (num <=? 159))
  || ((64976 <=? num) && (num <=? 65007))
  || (65534 <=? num mod 65536).

Fixpoint assoc_Z (k : Z) (l : list (Z * pystr)) : option pystr :=
  match l with
  | [] => None
  | (k', v) :: rest => if k' =? k then Some v else assoc_Z k rest
  end.

(** The numeric branch of [_replace_charref]. *)
Definition replace_numeric (num : Z) : pystr :=
  match assoc_Z num _invalid_charrefs with
  | Some v => v
  | None =>
      if ((55296 <=? num) && (num <=? 57343)) || (1114111 <? num) then [65533]
      else if _invalid_codepoints num then []
      else [num]
  end.

(** The optional [;] that ends a reference: its length at the head of
    [r]. *)
Definition semi (r : pystr) : nat :=
  match r with
  | c :: _ => if c =? 59 then 1%nat else 0%nat
  | [] => 0%nat
  end.

(** The first of the alternatives that matches. *)
Fixpoint first_match {A} (alternatives : list (option A)) : option A :=
  match alternatives with
  | [] => None
  | Some a :: _ => Some a
  | None :: rest => first_match rest
  end.

Section Cleaner.
Context {rt : Runtime}.

(** CPython refuses to convert a decimal string of [n] digits when [n]
    is above 640 and above the limit, if one is set. *)
Definition too_many_digits (n : Z) : bool :=
  (640 <? n) && (0 <? int_max_str_digits) && (int_max_str_digits <? n).

(** [int(s)] on decimal digits: [ValueError] beyond the limit. *)
Definition int_decimal (s : pystr) : result Z :=
  if too_many_digits (len s) then Raise ValueError
  else Ok (int_of_digits 10 s).

(** [for x in range(len(s)-1, 1, -1): if s[:x] in _html5: return
    _html5[s[:x]] + s[x:]], with [x] running down from [x0]; [None] when
    the loop ends without a return. *)
Fixpoint longest_name (s : pystr) (x0 : nat) : option pystr :=
  match x0 with
  | S (S _ as x') =>
      match html5 (firstn x0 s) with
      | Some v => Some (v ++ skipn x0 s)
      | None => longest_name s x'
      end
  | _ => None
  end.

(** The named branch of [_replace_charref]. *)
Definition replace_named (s : pystr) : pystr :=
  match html5 s with
  | Some v => v
  | None =>
      match longest_name s (List.length s - 1)%nat with
      | Some v => v
      | None => 38 :: s
      end
  end.

(** The alternative [#[0-9]+;?] at the head of [r], with what
    [_replace_charref] does with it: [num = int(s[1:].rstrip(';'))], which
    raises beyond the limit, and the numeric branch. *)
Definition decimal_match (r : pystr) : option (nat * result pystr) :=
  match r with
  | h :: r1 =>
      if h =? 35 then
        match span is_digit r1 with
        | S _ as n =>
            Some ((1 + n + semi (skipn n r1))%nat,
                  num <- int_decimal (firstn n r1) ;;
                  Ok (replace_numeric num))
        | O => None
        end
      else None
  | [] => None
  end.

(** The alternative [#[xX][0-9a-fA-F]+;?]:
    [num = int(s[2:].rstrip(';'), 16)]; the limit is on decimal
    conversions only. *)
Definition hex_match (r : pystr) : option (nat * result pystr) :=
  match r with
  | h :: x :: r2 =>
      if (h =? 35) && ((x =? 120) || (x =? 88)) then
        match span is_hex r2 with
        | S _ as n =>
            Some ((2 + n + semi (skipn n r2))%nat,
                  Ok (replace_numeric (int_of_digits 16 (firstn n r2))))
        | O => None
        end
      else None
  | _ => None
  end.

(** The alternative [[^\t\n\f <&#;]{1,32};?]. *)
Definition named_match (r : pystr) : option (nat * result pystr) :=
  match Nat.min 32 (span name_char r) with
  | S _ as n =>
      let k := (n + semi (skipn n r))%nat in
      Some (k, Ok (replace_named (firstn k r)))
  | O => None
  end.

(** The pattern [_charref] at the head of [s], with what
    [_replace_charref] computes on the match:
    [&(#[0-9]+;?|#[xX][0-9a-fA-F]+;?|[^\t\n\f <&#;]{1,32};?)]. *)
Definition charref_match (s : pystr) : option (nat * result pystr) :=
  match s with
  | c :: rest =>
      if c =? 38 then
        match first_match [decimal_match rest; hex_match rest;
                           named_match rest] with
        | Some (n, repl) => Some (S n, repl)
        | None => None
        end
      else None
  | [] => None
  end.

(** [html.unescape(s)] *)
Definition unescape (s : pystr) : result pystr :=
  if negb (contains s 38) then Ok s else re_sub_fn charref_match s.

(* ===================================================================== *)
(** ** cleaner.py: [clean_text] *)
(* ===================================================================== *)

(** Invisible / problematic characters to replace with normal space. *)
Definition INVISIBLE_TO_SPACE : list Z :=
  [ 160;    (* no-break space *)
    8203;   (* zero width space *)
    8204;   (* zero width non-joiner *)
    8205;   (* zero width joiner *)
    65279   (* BOM *) ].

(** Clean a string: strip and collapse whitespace, remove HTML tags and
    entities, normalize invisible characters, remove control characters.
    Returns empty string if value is not a string.  Nothing here catches
    what [html.unescape] raises. *)
Definition clean_text (value : pyval) : result pystr :=
  match value with
  | VStr value =>
      let s := value in
      (* Replace problematic invisible characters with normal space *)
      let s := fold_left (fun s char => replace char [32] s)
                 INVISIBLE_TO_SPACE s in
      (* Decode HTML entities *)
      s <- unescape s ;;
      (* Remove HTML tags *)
      let s := re_sub tag_match s in
      (* Strip and collapse whitespace *)
      let s := strip (re_sub ws_match s) in
      (* Remove ASCII control characters (keep tab, newline, carriage return) *)
      let s := filter (fun c => (32 <=? c) || contains [9; 10; 13] c) s in
      (* Remove DEL (0x7f) *)
      let s := filter (fun c => negb (c =? 127)) s in
      Ok s
  | _ => Ok []
  end.

End Cleaner.

(* ===================================================================== *)
(** ** [datetime.strptime], [strftime], [isoformat] *)
(* ===================================================================== *)

(** The directives of the three formats of [parse_date_to_iso], as
    [_strptime] turns a format into a regular expression: a directive, a
    literal character, or a run of whitespace (which becomes [\s+]). *)
Inductive directive : Type :=
| DY | Db | DB | Dd | DH | DM | DS
| DLit (c : Z)
| DSpace.

(** [_strptime] compiles a format; an unknown directive is a
    [ValueError].  [in_space] says that the previous character was
    whitespace too. *)
Definition directive_of (c : Z) : option directive :=
  if c =? 89 then Some DY
  else if c =? 98 then Some Db
  else if c =? 66 then Some DB
  else if c =? 100 then Some Dd
  else if c =? 72 then Some DH
  else if c =? 77 then Some DM
  else if c =? 83 then Some DS
  else None.

Fixpoint compile_format (in_space : bool) (format : pystr)
  : option (list directive) :=
  match format with
  | [] => Some []
  | 37 :: c :: rest =>
      match directive_of c, compile_format false rest with
      | Some d, Some ds => Some (d :: ds)
      | _, _ => None
      end
  | c :: rest =>
      if isspace c then
        if in_space then compile_format true rest
        else option_map (cons DSpace) (compile_format true rest)
      else option_map (cons (DLit c)) (compile_format false rest)
  end.

(** ASCII lower case, the case folding that matters for the letters of the
    formats and of the month names. *)
Definition lower (c : Z) : Z :=
  if (65 <=? c) && (c <=? 90) then c + 32 else c.

(** [calendar.month_abbr] and [calendar.month_name] of the C locale, in
    the order of the alternatives of the regular expression (longest
    first), each with its month number. *)
Definition a_month : list (pystr * Z) :=
  [ (py "jan", 1); (py "feb", 2); (py "mar", 3); (py "apr", 4);
    (py "may", 5); (py "jun", 6); (py "jul", 7); (py "aug", 8);
    (py "sep", 9); (py "oct", 10); (py "nov", 11); (py "dec", 12) ].

Definition f_month : list (pystr * Z) :=
  [ (py "september", 9); (py "february", 2); (py "november", 11);
    (py "december", 12); (py "january", 1); (py "october", 10);
    (py "august", 8); (py "march", 3); (py "april", 4); (py "june", 6);
    (py "july", 7); (py "may", 5) ].

Definition is_leap (y : Z) : bool :=
  (y mod 4 =? 0) && (negb (y mod 100 =? 0) || (y mod 400 =? 0)).

Definition days_in_month (y m : Z) : Z :=
  if m =? 2 then (if is_leap y then 29 else 28)
  else if (m =? 4) || (m =? 6) || (m =? 9) || (m =? 11) then 30
  else 31.

(** The checks of the constructors [date] and [datetime] on the fields
    [strptime] fills. *)
Definition valid_fields (dt : datetime) : bool :=
  (1 <=? year dt) && (year dt <=? 9999)
  && (1 <=? month dt) && (month dt <=? 12)
  && (1 <=? day dt) && (day dt <=? days_in_month (year dt) (month dt))
  && (0 <=? hour dt) && (hour dt <=? 23)
  && (0 <=? minute dt) && (minute dt <=? 59)
  && (0 <=? second dt) && (second dt <=? 59).

(** [s.zfill(n)] on the digits of a non-negative number. *)
Definition zfill (n : nat) (s : pystr) : pystr :=
  repeat 48 (n - List.length s) ++ s.

Definition pad (n : nat) (z : Z) : pystr := zfill n (str_of_int z).

(** [dt.strftime("%Y-%m-%dT%H:%M:%S")].  [%Y] is the year as the C
    library prints it, without padding. *)
Definition strftime (dt : datetime) : pystr :=
  str_of_int (year dt) ++ py "-" ++ pad 2 (month dt) ++ py "-"
  ++ pad 2 (day dt) ++ py "T" ++ pad 2 (hour dt) ++ py ":"
  ++ pad 2 (minute dt) ++ py ":" ++ pad 2 (second dt).

(** [_format_offset]: [+HH:MM], with [:SS] and [.ffffff] when they are
    not zero. *)
Definition format_offset (off : option Z) : pystr :=
  match off with
  | None => []
  | Some us =>
      let sign := if us <? 0 then py "-" else py "+" in
      let a := Z.abs us in
      let hh := a / 3600000000 in
      let mm := (a mod 3600000000) / 60000000 in
      let ss := (a mod 60000000) / 1000000 in
      let micro := a mod 1000000 in
      sign ++ pad 2 hh ++ py ":" ++ pad 2 mm
      ++ (if (ss =? 0) && (micro =? 0) then []
          else py ":" ++ pad 2 ss
               ++ (if micro =? 0 then [] else py "." ++ pad 6 micro))
  end.

(** [dt.isoformat()] *)
Definition isoformat (dt : datetime) : pystr :=
  pad 4 (year dt) ++ py "-" ++ pad 2 (month dt) ++ py "-"
  ++ pad 2 (day dt) ++ py "T" ++ pad 2 (hour dt) ++ py ":"
  ++ pad 2 (minute dt) ++ py ":" ++ pad 2 (second dt)
  ++ (if microsecond dt =? 0 then [] else py "." ++ pad 6 (microsecond dt))
  ++ format_offset (utcoffset dt).

(** [s[i]] *)
Definition index (s : pystr) (i : nat) : result Z :=
  match nth_error s i with
  | Some c => Ok c
  | None => Raise IndexError
  end.

(** Truth value of a value ([not v] is its negation). *)
Definition truthy (v : pyval) : bool :=
  match v with
  | VNone => false
  | VBool b => b
  | VInt z => negb (z =? 0)
  | VFloat f => negb (PrimFloat.eqb f 0)
  | VStr s => negb (is_empty s)
  | VList l => match l with [] => false | _ => true end
  | VDict d => match d with [] => false | _ => true end
  end.

Definition is_str (v : pyval) : bool :=
  match v with VStr _ => true | _ => false end.

(** The pattern [^Updated\s+] with [re.IGNORECASE]: the length of its
    match at the start of [s]. *)
Definition updated_match (s : pystr) : option nat :=
  if startswith (map lower s) (py "updated") then
    match span isspace (skipn 7 s) with
    | O => None
    | n => Some (7 + n)%nat
    end
  else None.

(** [re.sub(r"^Updated\s+", "", s, flags=re.IGNORECASE)] *)
Definition sub_updated (s : pystr) : pystr :=
  match updated_match s with
  | Some n => skipn n s
  | None => s
  end.

Section Dates.
Context {rt : Runtime}.

(** The class [\d] of a [str] pattern: a decimal digit of any script,
    with the value [int] gives it. *)
Definition decimal (c : Z) : option Z :=
  if is_digit c then Some (c - 48) else unicode_decimal c.

(** The class [[lo-hi]] of ASCII digits. *)
Definition digit_in (lo hi : Z) (c : Z) : option Z :=
  if (48 + lo <=? c) && (c <=? 48 + hi) then Some (c - 48) else None.

(** A pattern of one digit class. *)
Definition one (p : Z -> option Z) (s : pystr) : list (Z * pystr) :=
  match s with
  | c :: rest =>
      match p c with
      | Some v => [(v, rest)]
      | None => []
      end
  | [] => []
  end.

(** A pattern of two digit classes, with the number it reads. *)
Definition two (p q : Z -> option Z) (s : pystr) : list (Z * pystr) :=
  match s with
  | c1 :: c2 :: rest =>
      match p c1, q c2 with
      | Some a, Some b => [(10 * a + b, rest)]
      | _, _ => []
      end
  | _ => []
  end.

(** The alternatives of a month directive: the names that [s] starts
    with, whatever the case. *)
Definition month_alts (names : list (pystr * Z)) (s : pystr)
  : list (Z * pystr) :=
  flat_map
    (fun '(name, m) =>
       if startswith (map lower s) name
       then [(m, skipn (List.length name) s)] else [])
    names.

(** The matches of [\s+], the longest first. *)
Fixpoint space_alts (n : nat) (s : pystr) : list pystr :=
  match n with
  | O => []
  | S k => skipn n s :: space_alts k s
  end.

Definition set_year (v : Z) (dt : datetime) : datetime :=
  mk_datetime v (month dt) (day dt) (hour dt) (minute dt) (second dt)
    (microsecond dt) (utcoffset dt).
Definition set_month (v : Z) (dt : datetime) : datetime :=
  mk_datetime (year dt) v (day dt) (hour dt) (minute dt) (second dt)
    (microsecond dt) (utcoffset dt).
Definition set_day (v : Z) (dt : datetime) : datetime :=
  mk_datetime (year dt) (month dt) v (hour dt) (minute dt) (second dt)
    (microsecond dt) (utcoffset dt).
Definition set_hour (v : Z) (dt : datetime) : datetime :=
  mk_datetime (year dt) (month dt) (day dt) v (minute dt) (second dt)
    (microsecond dt) (utcoffset dt).
Definition set_minute (v : Z) (dt : datetime) : datetime :=
  mk_datetime (year dt) (month dt) (day dt) (hour dt) v (second dt)
    (microsecond dt) (utcoffset dt).
Definition set_second (v : Z) (dt : datetime) : datetime :=
  mk_datetime (year dt) (month dt) (day dt) (hour dt) (minute dt) v
    (microsecond dt) (utcoffset dt).

Definition with_field (set : Z -> datetime -> datetime)
  (l : list (Z * pystr)) : list ((datetime -> datetime) * pystr) :=
  map (fun '(v, rest) => (set v, rest)) l.

Definition no_field (l : list pystr)
  : list ((datetime -> datetime) * pystr) :=
  map (fun rest => (fun dt : datetime => dt, rest)) l.

(** The alternatives of one directive at the head of [s], in the order
    the regular expression tries them, each with the field it fills and
    the rest of the string:
    - [%Y]: [\d\d\d\d];
    - [%d]: [3[0-1]|[1-2]\d|0[1-9]|[1-9]| [1-9]];
    - [%H]: [2[0-3]|[0-1]\d|\d];
    - [%M]: [[0-5]\d|\d];
    - [%S]: [6[0-1]|[0-5]\d|\d];
    - [%b], [%B]: the month names;
    - a literal, compared without case; whitespace: [\s+]. *)
Definition alts (d : directive) (s : pystr)
  : list ((datetime -> datetime) * pystr) :=
  match d with
  | DY =>
      with_field set_year
        (flat_map (fun '(hi, rest) =>
                     map (fun '(lo, rest') => (100 * hi + lo, rest'))
                       (two decimal decimal rest))
           (two decimal decimal s))
  | Dd =>
      with_field set_day
        (two (digit_in 3 3) (digit_in 0 1) s
         ++ two (digit_in 1 2) decimal s
         ++ two (digit_in 0 0) (digit_in 1 9) s
         ++ one (digit_in 1 9) s
         ++ match s with
            | 32 :: rest => one (digit_in 1 9) rest
            | _ => []
            end)
  | DH =>
      with_field set_hour
        (two (digit_in 2 2) (digit_in 0 3) s
         ++ two (digit_in 0 1) decimal s
         ++ one decimal s)
  | DM =>
      with_field set_minute (two (digit_in 0 5) decimal s ++ one decimal s)
  | DS =>
      with_field set_second
        (two (digit_in 6 6) (digit_in 0 1) s
         ++ two (digit_in 0 5) decimal s
         ++ one decimal s)
  | Db => with_field set_month (month_alts a_month s)
  | DB => with_field set_month (month_alts f_month s)
  | DLit c =>
      match s with
      | x :: rest => if lower x =? lower c then no_field [rest] else []
      | [] => []
      end
  | DSpace => no_field (space_alts (span isspace s) s)
  end.

Fixpoint first_success {A B} (f : A -> option B) (l : list A) : option B :=
  match l with
  | [] => None
  | a :: rest =>
      match f a with
      | Some b => Some b
      | None => first_success f rest
      end
  end.

(** [format_regex.match(data_string)]: the first way to match the
    directives one after the other, backtracking over their
    alternatives; the fields found and what is left of the string. *)
Fixpoint match_format (format : list directive) (s : pystr) (dt : datetime)
  : option (datetime * pystr) :=
  match format with
  | [] => Some (dt, s)
  | d :: format' =>
      first_success
        (fun '(set, rest) => match_format format' rest (set dt))
        (alts d s)
  end.

(** [datetime.strptime(data_string, format)]: [ValueError] when the
    format does not match, when unconverted data remains, and when the
    fields are not a date and a time. *)
Definition strptime (data_string format : pystr) : result datetime :=
  match compile_format false format with
  | None => Raise ValueError
  | Some directives =>
      match match_format directives data_string
              (mk_datetime 1900 1 1 0 0 0 0 None) with
      | None => Raise ValueError
      | Some (dt, rest) =>
          if negb (is_empty rest) then Raise ValueError
          else if valid_fields dt then Ok dt
          else Raise ValueError
      end
  end.

(** [datetime.fromisoformat(s)] *)
Definition datetime_fromisoformat (s : pystr) : result datetime :=
  match fromisoformat s with
  | Some dt => Ok dt
  | None => Raise ValueError
  end.

End Dates.

(* ===================================================================== *)
(** ** cleaner.py: [parse_date_to_iso], [clean_article], [clean] *)
(* ===================================================================== *)

Section Normalizer.
Context {rt : Runtime}.

(** The body of the loop [for candidate in (prefix_removed, s)]: the two
    formats are tried, and [next] is the rest of the loop. *)
Definition try_candidate (candidate : pystr) (next : result pystr)
  : result pystr :=
  try_except_value_type
    (dt <- strptime candidate (py "%b. %d, %Y") ;;
     Ok (strftime dt))
    (try_except_value_type
       (dt <- strptime candidate (py "%B %d, %Y") ;;
        Ok (strftime dt))
       next).

(** Try to parse a date string into ISO 8601 format (YYYY-MM-DD or full
    ISO).  If parsing fails, returns "". *)
Definition parse_date_to_iso (date_str : pyval) : result pystr :=
  if negb (truthy date_str) || negb (is_str date_str) then Ok []
  else
    match date_str with
    | VStr date_str =>
        let s := strip date_str in
        if is_empty s then Ok []
        else
          (* Try ISO format first *)
          try_except_value_type
            (dt <- datetime_fromisoformat (replace 90 (py "+00:00") s) ;;
             Ok (isoformat dt))
          (* Try "2026-Feb-01T13:28:27-05:00" style (month name) *)
          (try_except_value_type
            (dt <- strptime (slice s 0 20) (py "%Y-%b-%dT%H:%M:%S") ;;
             let iso := strftime dt in
             has_offset <-
               (if len s >? 20 then
                  c <- index s 20 ;;
                  Ok (contains (py "-+") c && (len s >=? 26))
                else Ok false) ;;
             if has_offset then
               colon <-
                 (if len s >? 25 then
                    c <- index s 23 ;;
                    Ok (c =? 58)
                  else Ok false) ;;
               Ok (iso ++ (if colon then slice s 20 26
                           else slice s 20 23 ++ py ":" ++ slice s 23 25))
             else Ok iso)
          (* Try "Updated Jan. 26, 2026" or "Jan. 26, 2026" *)
          (let prefix_removed := strip (sub_updated s) in
           try_candidate prefix_removed (try_candidate s (Ok []))))
    | _ => Ok []
    end.

(** Clean one article dict: url, title, content, published.  Preserves
    all keys; missing fields become empty strings.  Never removes the
    record. *)
Definition clean_article (article : pyval) : result pyval :=
  if negb (is_dict article) then Ok article
  else
    url <- get article (py "url") ;;
    url <-
      (match url with
       | VNone => Ok []
       | VStr _ => clean_text url
       | _ => Ok (str url)
       end) ;;
    title <- get article (py "title") ;;
    title <- clean_text title ;;
    content <- get article (py "content") ;;
    content <- clean_text content ;;
    published <- get article (py "published") ;;
    published <-
      (match published with
       | VStr _ => parse_date_to_iso published
       | _ => Ok []
       end) ;;
    Ok (VDict [ (py "url", VStr url);
                (py "title", VStr title);
                (py "content", VStr content);
                (py "published", VStr published) ]).

(** Clean full input data (dict with 'generated_at' and 'articles').
    Same number of records; preserves structure. *)
Definition clean (data : pyval) : result pyval :=
  if negb (is_dict data) then Ok data
  else
    generated_at <- get data (py "generated_at") ;;
    let generated_at :=
      match generated_at with
      | VNone => []
      | VStr g => g
      | _ => str generated_at
      end in
    articles <- get data (py "articles") ;;
    let articles := match articles with VList l => l | _ => [] end in
    cleaned_articles <- map_result clean_article articles ;;
    cleaned_generated_at <- clean_text (VStr generated_at) ;;
    Ok (VDict [ (py "generated_at",
                 VStr (if negb (is_empty cleaned_generated_at)
                       then cleaned_generated_at else generated_at));
                (py "articles", VList cleaned_articles) ]).

End Normalizer.

(* ===================================================================== *)
(** ** A runtime to compute with *)
(* ===================================================================== *)

(** A few rows of [html.entities.html5]. *)
Definition html5_rows : list (pystr * pystr) :=
  [ (py "amp;", [38]); (py "amp", [38]); (py "lt;", [60]); (py "lt", [60]);
    (py "gt;", [62]); (py "gt", [62]); (py "quot;", [34]); (py "quot", [34]);
    (py "nbsp;", [160]); (py "nbsp", [160]); (py "copy;", [169]);
    (py "copy", [169]) ].

Fixpoint assoc_str (k : pystr) (l : list (pystr * pystr)) : option pystr :=
  match l with
  | [] => None
  | (k', v) :: rest => if pystr_eqb k' k then Some v else assoc_str k rest
  end.

(** Two ASCII digits at position [i]. *)
Definition digits2 (s : pystr) (i : nat) : option Z :=
  match nth_error s i, nth_error s (S i) with
  | Some a, Some b =>
      if is_digit a && is_digit b then Some (10 * (a - 48) + (b - 48))
      else None
  | _, _ => None
  end.

Definition char_at (s : pystr) (i : nat) (c : Z) : bool :=
  match nth_error s i with
  | Some x => x =? c
  | None => false
  end.

(** An ISO 8601 parser for the one form [YYYY-MM-DDTHH:MM:SS] with an
    optional offset [+HH:MM] or [-HH:MM], which every version of
    [datetime.fromisoformat] accepts. *)
Definition iso_seconds (s : pystr) : option datetime :=
  if char_at s 4 45 && char_at s 7 45 && char_at s 10 84
     && char_at s 13 58 && char_at s 16 58
  then
    match digits2 s 0, digits2 s 2, digits2 s 5, digits2 s 8,
          digits2 s 11, digits2 s 14, digits2 s 17 with
    | Some c, Some y, Some mo, Some d, Some h, Some mi, Some se =>
        let naive := mk_datetime (100 * c + y) mo d h mi se 0 None in
        if negb (valid_fields naive) then None
        else if (List.length s =? 19)%nat then Some naive
        else if (List.length s =? 25)%nat && char_at s 22 58 then
          match nth_error s 19, digits2 s 20, digits2 s 23 with
          | Some sign, Some oh, Some om =>
              let off := (oh * 60 + om) * 60000000 in
              if negb ((oh <? 24) && (om <? 60)) then None
              else if sign =? 43 then
                Some (mk_datetime (100 * c + y) mo d h mi se 0 (Some off))
              else if sign =? 45 then
                Some (mk_datetime (100 * c + y) mo d h mi se 0 (Some (- off)))
              else None
          | _, _, _ => None
          end
        else None
    | _, _, _, _, _, _, _ => None
    end
  else None.

(** An instance of [Runtime] for running the functions on examples: the
    rows above for the entity table, the ISO parser above, ASCII digits
    only, a placeholder for [repr], and the limit of 4300 digits that
    CPython sets by default. *)
Definition example_runtime : Runtime :=
  {| html5 := fun name => assoc_str name html5_rows;
     fromisoformat := iso_seconds;
     unicode_decimal := fun _ => None;
     repr_str := fun _ => py "<repr>";
     int_max_str_digits := 4300 |}.

(** Two articles to run the functions on. *)
Definition good_article : pyval :=
  VDict [ (py "title", VStr (py "A title"));
          (py "content",
           VStr (py "Fifty characters of body text, and then some more of it."));
          (py "url", VStr (py "https://example.org/a"));
          (py "published", VStr (py "2026-02-02T02:30:50-05:00")) ].

Definition raw_article : pyval :=
  VDict [ (py "title", VStr (py "  <b>Hi</b>&nbsp;there  "));
          (py "content", VStr (py "short"));
          (py "url", VInt 123);
          (py "published", VStr (py "2026-Feb-01T13:28:27-05:00")) ].

(** A decimal character reference of [n] digits: ['&#' + '9' * n + ';']. *)
Definition nines_reference (n : nat) : pystr :=
  py "&#" ++ repeat 57 n ++ py ";".


(* ===================================================================== *)
(** ** Definitions for the statements *)
(* ===================================================================== *)

Section Statements.
Context {rt : Runtime}.

(** [d.get(key)] on the pairs of a dict. *)
Definition lookup_or_none (d : list (pystr * pyval)) (key : pystr) : pyval :=
  match dict_lookup d key with
  | Some v => v
  | None => VNone
  end.

(** The list [validate] and [clean] iterate over: the value of
    ['articles'] when it is a list, the empty list otherwise. *)
Definition articles_of (d : list (pystr * pyval)) : list pyval :=
  match dict_lookup d (py "articles") with
  | Some (VList l) => l
  | _ => []
  end.

(** The reason codes of a record, from its three stripped fields, in the
    order the rules are evaluated. *)
Definition reasons (title content url : pystr) : list pystr :=
  append_if (negb (is_empty content) && (len content <? 50))
    (py "content_too_short")
    (append_if
       (negb (is_empty url)
        && negb (startswith url (py "http://")
                 || startswith url (py "https://")))
       (py "invalid_url")
       (append_if (is_empty url) (py "missing_url")
          (append_if (is_empty content) (py "missing_content")
             (append_if (is_empty title) (py "missing_title") [])))).

(** The [url] of a cleaned article, from the value of the field. *)
Definition cleaned_url (url : pyval) : result pystr :=
  match url with
  | VNone => Ok []
  | VStr _ => clean_text url
  | _ => Ok (str url)
  end.

(** The verdict on a mapping. *)
Definition verdict (d : list (pystr * pyval)) : bool * list pystr :=
  let errors :=
    reasons (_strip (lookup_or_none d (py "title")))
      (_strip (lookup_or_none d (py "content")))
      (_strip (lookup_or_none d (py "url"))) in
  (len errors =? 0, errors).

(** A field of a record is present: it is there and not blank. *)
Definition present (key : pystr) (record : pyval) : bool :=
  match record with
  | VDict d => negb (is_empty (_strip (lookup_or_none d key)))
  | _ => false
  end.

Definition present_count (key : pystr) (articles : list pyval) : Z :=
  len (filter (present key) articles).

Definition passes (record : pyval) : bool :=
  match record with
  | VDict d => fst (verdict d)
  | _ => false
  end.

(** One turn of the loop of [validate] on a mapping. *)
Definition step_on (st : tally) (d : list (pystr * pyval)) : tally :=
  let r := VDict d in
  {| t_valid := incr_if (passes r) (t_valid st);
     t_invalid := incr_if (negb (passes r)) (t_invalid st);
     t_title := incr_if (present (py "title") r) (t_title st);
     t_content := incr_if (present (py "content") r) (t_content st);
     t_url := incr_if (present (py "url") r) (t_url st);
     t_date := incr_if (present (py "published") r) (t_date st);
     t_errors :=
       if passes r then t_errors st
       else fold_left counter_incr (snd (verdict d)) (t_errors st) |}.

(** The string [clean] cleans for ['generated_at']. *)
Definition stamp_text (d : list (pystr * pyval)) : pystr :=
  match lookup_or_none d (py "generated_at") with
  | VNone => []
  | VStr g => g
  | v => str v
  end.

(** [s] starts with a decimal character reference, [&#] and digits,
    that has more digits than [int] converts. *)
Definition long_at (s : pystr) : bool :=
  match s with
  | c :: h :: r1 =>
      (c =? 38) && (h =? 35)
      && too_many_digits (Z.of_nat (span is_digit r1))
  | _ => false
  end.

(** There is such a reference somewhere in [s]. *)
Fixpoint long_reference (s : pystr) : bool :=
  match s with
  | [] => false
  | _ :: rest => long_at s || long_reference rest
  end.

(** A value that [clean_text] takes without raising: anything but a
    string with such a reference. *)
Definition capped (v : pyval) : bool :=
  match v with
  | VStr s => negb (long_reference s)
  | _ => true
  end.

(** The same for an article: its [url], [title] and [content]. *)
Definition article_capped (article : pyval) : bool :=
  match article with
  | VDict d =>
      capped (lookup_or_none d (py "url"))
      && capped (lookup_or_none d (py "title"))
      && capped (lookup_or_none d (py "content"))
  | _ => true
  end.

(** The same for a batch: its articles and its ['generated_at']. *)
Definition batch_capped (d : list (pystr * pyval)) : bool :=
  forallb article_capped (articles_of d)
  && negb (long_reference (stamp_text d)).

(** Every parse strategy of [parse_date_to_iso] fails on [s]. *)
Definition strategies_fail (s : pystr) : Prop :=
  datetime_fromisoformat (replace 90 (py "+00:00") s) = Raise ValueError
  /\ strptime (slice s 0 20) (py "%Y-%b-%dT%H:%M:%S") = Raise ValueError
  /\ forall candidate,
       candidate = strip (sub_updated s) \/ candidate = s ->
       strptime candidate (py "%b. %d, %Y") = Raise ValueError
       /\ strptime candidate (py "%B %d, %Y") = Raise ValueError.

End Statements.

(** [round(100.0 * count / total, 2)] on floats. *)
Definition rounded_percent (count total : Z) : float :=
  round2 (PrimFloat.div (PrimFloat.mul 100 (float_of_int count))
            (float_of_int total)).

(** The order of the failure rows: a larger count first, and for equal
    counts the smaller code (or the same) first. *)
Definition row_order (a b : pystr * Z) : Prop :=
  snd a > snd b \/ (snd a = snd b /\ pystr_compare (fst a) (fst b) <> Gt).

(** [re.sub(r"\s+", " ", s)] *)
Definition collapse (s : pystr) : pystr := re_sub ws_match s.

(** [re.sub(r"<[^>]+>", "", s)] *)
Definition strip_tags (s : pystr) : pystr := re_sub tag_match s.

(** Every whitespace character is one space, and what follows it is not
    whitespace; [at_end] says whether a space may be the last character. *)
Fixpoint spaced (at_end : bool) (t : pystr) : bool :=
  match t with
  | [] => true
  | c :: rest =>
      (if isspace c then
         (c =? 32)
         && match rest with
            | c' :: _ => negb (isspace c')
            | [] => at_end
            end
       else true)
      && spaced at_end rest
  end.

Definition head_not_space (t : pystr) : bool :=
  match t with
  | c :: _ => negb (isspace c)
  | [] => true
  end.

Definition not_gt (c : Z) : bool := negb (c =? 62).

(** The pattern [<[^>]+>] cannot match at a [<] that is followed at once
    by [>], or by no [>] at all. *)
Definition unclosed (rest : pystr) : bool :=
  match rest with
  | c :: _ => (c =? 62) || forallb not_gt rest
  | [] => true
  end.

(** No place of [t] where the tag pattern matches. *)
Fixpoint tagfree (t : pystr) : bool :=
  match t with
  | [] => true
  | c :: rest =>
      match tag_match t with
      | None => tagfree rest
      | Some _ => false
      end
  end.

Definition invisible (c : Z) : bool := contains INVISIBLE_TO_SPACE c.

Definition to_space (c : Z) : Z := if invisible c then 32 else c.

(** The two filters at the end of [clean_text] keep [c]. *)
Definition kept (c : Z) : bool :=
  ((32 <=? c) || contains [9; 10; 13] c) && negb (c =? 127).

(** A character of a string on which [clean_text] is idempotent: not
    [&], and whitespace or neither an ASCII control character nor DEL. *)
Definition plain (c : Z) : Prop :=
  c <> 38 /\ (isspace c = true \/ (32 <= c /\ c <> 127)).

Definition plainb (c : Z) : bool :=
  negb (c =? 38) && (isspace c || ((32 <=? c) && negb (c =? 127))).

(** The same, and not one of [INVISIBLE_TO_SPACE]. *)
Definition settled (c : Z) : Prop := plain c /\ invisible c = false.

(* ===================================================================== *)
(** ** The validator *)
(* ===================================================================== *)

Lemma percent_zero (count : Z) : percent count 0 = Ok (VInt 0).
Proof. reflexivity. Qed.

Lemma percent_pos (count total : Z) :
  total <> 0 -> percent count total = Ok (VFloat (rounded_percent count total)).
Proof.
  intros H. unfold percent, truediv, rounded_percent.
  destruct (Z.eqb_spec total 0) as [E|_]; [contradiction|]. reflexivity.
Qed.

Lemma percent_ok (count total : Z) : exists p, percent count total = Ok p.
Proof.
  destruct (Z.eq_dec total 0) as [->|H].
  - eexists. apply percent_zero.
  - eexists. apply (percent_pos _ _ H).
Qed.


Section ValidatorFacts.
Context {rt : Runtime}.

Lemma get_dict (d : list (pystr * pyval)) (k : pystr) :
  get (VDict d) k = Ok (lookup_or_none d k).
Proof.
  unfold get, get_default, lookup_or_none. destruct (dict_lookup d k); reflexivity.
Qed.

Lemma get_not_dict (r : pyval) (k : pystr) :
  is_dict r = false -> get r k = Raise AttributeError.
Proof. destruct r; simpl; intros H; try reflexivity; discriminate. Qed.

Lemma is_dict_inv (r : pyval) : is_dict r = true -> exists d, r = VDict d.
Proof. destruct r; simpl; try discriminate; eauto. Qed.

Lemma validate_record_dict (d : list (pystr * pyval)) :
  validate_record (VDict d) = Ok (verdict d).
Proof.
  unfold validate_record. cbn [is_dict negb].
  rewrite !get_dict. reflexivity.
Qed.

Lemma reasons_exclusive (title content url : pystr) :
  ~ (In (py "missing_url") (reasons title content url)
     /\ In (py "invalid_url") (reasons title content url))
  /\ ~ (In (py "missing_content") (reasons title content url)
        /\ In (py "content_too_short") (reasons title content url)).
Proof.
  unfold reasons.
  destruct (is_empty title), (is_empty content), (is_empty url);
    destruct (len content <? 50);
    destruct (startswith url (py "http://") || startswith url (py "https://"));
    vm_compute; split; intros [H1 H2]; intuition discriminate.
Qed.

(** C9: for every mapping record, [validate_record] returns a verdict
    whose reasons never hold both [missing_url] and [invalid_url], and
    never both [missing_content] and [content_too_short]. *)
Theorem validate_record_exclusive (d : list (pystr * pyval)) :
  exists is_valid errors,
    validate_record (VDict d) = Ok (is_valid, errors)
    /\ ~ (In (py "missing_url") errors /\ In (py "invalid_url") errors)
    /\ ~ (In (py "missing_content") errors
          /\ In (py "content_too_short") errors).
Proof.
  exists (fst (verdict d)), (snd (verdict d)). split.
  - rewrite validate_record_dict. destruct (verdict d); reflexivity.
  - unfold verdict. cbn [snd]. apply reasons_exclusive.
Qed.

Lemma is_present_dict (d : list (pystr * pyval)) (k : pystr) :
  _is_present (VDict d) k = Ok (present k (VDict d)).
Proof. unfold _is_present. rewrite get_dict. reflexivity. Qed.

Lemma validate_step_dict (st : tally) (d : list (pystr * pyval)) :
  validate_step st (VDict d) = Ok (step_on st d).
Proof.
  unfold validate_step. rewrite !is_present_dict, validate_record_dict.
  cbn [bind]. unfold step_on, passes. destruct (verdict d) as [v e]. reflexivity.
Qed.

Lemma validate_step_not_dict (st : tally) (r : pyval) :
  is_dict r = false -> validate_step st r = Raise AttributeError.
Proof.
  intros H. unfold validate_step, _is_present.
  rewrite (get_not_dict r _ H). reflexivity.
Qed.

Lemma len_cons {A} (x : A) (l : list A) : len (x :: l) = 1 + len l.
Proof. unfold len. cbn [List.length]. lia. Qed.

Lemma len_nonneg {A} (l : list A) : 0 <= len l.
Proof. unfold len. lia. Qed.

Lemma present_count_cons (k : pystr) (r : pyval) (l : list pyval) :
  present_count k (r :: l) = incr_if (present k r) 0 + present_count k l.
Proof.
  unfold present_count, incr_if. cbn [filter].
  destruct (present k r); [rewrite len_cons|]; lia.
Qed.

(** The loop of [validate] on mappings: it ends, and its counters are the
    numbers of records that pass, fail, and have each field. *)
Lemma for_each_dicts (l : list pyval) :
  Forall (fun r => is_dict r = true) l ->
  forall st, exists st',
    for_each validate_step l st = Ok st'
    /\ t_valid st' + t_invalid st' = t_valid st + t_invalid st + len l
    /\ t_title st' = t_title st + present_count (py "title") l
    /\ t_content st' = t_content st + present_count (py "content") l
    /\ t_url st' = t_url st + present_count (py "url") l
    /\ t_date st' = t_date st + present_count (py "published") l.
Proof.
  induction 1 as [|r l Hr _ IH]; intros st.
  - exists st. unfold present_count, len. cbn. repeat split; lia.
  - destruct (is_dict_inv r Hr) as [d ->].
    cbn [for_each]. rewrite validate_step_dict. cbn [bind].
    destruct (IH (step_on st d)) as (st' & E & Hv & Ht & Hc & Hu & Hd).
    exists st'. split; [exact E|].
    rewrite !present_count_cons, len_cons.
    rewrite Hv, Ht, Hc, Hu, Hd. unfold step_on. cbn [t_valid t_invalid t_title t_content t_url t_date].
    unfold incr_if.
    destruct (passes (VDict d)), (present (py "title") (VDict d)),
      (present (py "content") (VDict d)), (present (py "url") (VDict d)),
      (present (py "published") (VDict d));
      cbn [negb]; repeat split; lia.
Qed.

Lemma for_each_non_mapping (l : list pyval) :
  Exists (fun r => is_dict r = false) l ->
  forall st, for_each validate_step l st = Raise AttributeError.
Proof.
  induction l as [|r l IH]; intros H st.
  - inversion H.
  - cbn [for_each]. destruct (is_dict r) eqn:Hr.
    + destruct (is_dict_inv r Hr) as [d ->].
      rewrite validate_step_dict. cbn [bind]. apply IH.
      inversion H; subst; [discriminate | assumption].
    + rewrite (validate_step_not_dict st r Hr). reflexivity.
Qed.

Lemma validate_articles (d : list (pystr * pyval)) :
  validate (VDict d)
  = (st <- for_each validate_step (articles_of d) (mk_tally 0 0 0 0 0 0 []) ;;
     let total := len (articles_of d) in
     title_pct <- percent (t_title st) total ;;
     content_pct <- percent (t_content st) total ;;
     url_pct <- percent (t_url st) total ;;
     date_pct <- percent (t_date st) total ;;
     Ok (mk_report total (t_valid st) (t_invalid st) (t_title st)
           (t_content st) (t_url st) (t_date st) title_pct content_pct
           url_pct date_pct (t_errors st))).
Proof.
  unfold validate, get_default, articles_of.
  destruct (dict_lookup d (py "articles")) as [[]|]; reflexivity.
Qed.

(** C10: for every batch in which every element of ['articles'] is a
    mapping, [validate] returns a report with
    [valid_count + invalid_count = total_records], and [total_records] is
    the length of the articles. *)
Theorem validate_counts_partition (d : list (pystr * pyval)) :
  Forall (fun r => is_dict r = true) (articles_of d) ->
  exists report,
    validate (VDict d) = Ok report
    /\ total_records report = len (articles_of d)
    /\ valid_count report + invalid_count report = total_records report.
Proof.
  intros H. rewrite validate_articles.
  destruct (for_each_dicts _ H (mk_tally 0 0 0 0 0 0 []))
    as (st & -> & Hv & _).
  cbn [bind].
  destruct (percent_ok (t_title st) (len (articles_of d))) as [p1 ->].
  destruct (percent_ok (t_content st) (len (articles_of d))) as [p2 ->].
  destruct (percent_ok (t_url st) (len (articles_of d))) as [p3 ->].
  destruct (percent_ok (t_date st) (len (articles_of d))) as [p4 ->].
  cbn [bind]. eexists. split; [reflexivity|].
  cbn in *. split; [reflexivity | lia].
Qed.

(** C1, what the code does: on a batch whose ['articles'] holds an
    element that is not a mapping, [validate] returns no report.  The
    presence tallies call [record.get] before [validate_record] is
    reached, and only a [dict] has that method: [AttributeError]
    propagates.  (The claim has the element classified as
    [invalid_record]; [validate_record] alone does that, see
    [validate_record_invalid_record].) *)
Theorem validate_non_mapping_raises (d : list (pystr * pyval)) :
  Exists (fun r => is_dict r = false) (articles_of d) ->
  validate (VDict d) = Raise AttributeError.
Proof.
  intros H. rewrite validate_articles.
  rewrite (for_each_non_mapping _ H). reflexivity.
Qed.

Lemma validate_returns_on_mappings (d : list (pystr * pyval))
  (report : QualityReport) :
  validate (VDict d) = Ok report ->
  Forall (fun r => is_dict r = true) (articles_of d).
Proof.
  intros E.
  destruct (Forall_Exists_dec (fun r => is_dict r = true)
              (fun r => bool_dec (is_dict r) true) (articles_of d))
    as [H|H]; [exact H|].
  rewrite validate_articles, for_each_non_mapping in E; [discriminate|].
  eapply Exists_impl; [|exact H].
  intros r Hr. cbv beta in Hr. now apply not_true_is_false.
Qed.

Lemma validate_mappings_returns (d : list (pystr * pyval)) :
  Forall (fun r => is_dict r = true) (articles_of d) ->
  exists report, validate (VDict d) = Ok report.
Proof.
  intros H. rewrite validate_articles.
  destruct (for_each_dicts _ H (mk_tally 0 0 0 0 0 0 [])) as (st & -> & _).
  cbn [bind]. cbv zeta.
  destruct (percent_ok (t_title st) (len (articles_of d))) as [p1 ->].
  destruct (percent_ok (t_content st) (len (articles_of d))) as [p2 ->].
  destruct (percent_ok (t_url st) (len (articles_of d))) as [p3 ->].
  destruct (percent_ok (t_date st) (len (articles_of d))) as [p4 ->].
  cbn [bind]. eauto.
Qed.

(** C7: for every batch, [validate] returns a report when the articles
    are mappings (an empty batch included: no [ZeroDivisionError]), and
    in every report it returns each present count is the number of
    records with that field present, and each completeness percentage is
    the integer [0] when [total_records] is [0] and
    [round(100.0 * present_count / total_records, 2)] on floats when
    [total_records > 0]. *)
Theorem validate_percentages (d : list (pystr * pyval)) :
  (Forall (fun r => is_dict r = true) (articles_of d) ->
   exists report, validate (VDict d) = Ok report)
  /\ forall report,
       validate (VDict d) = Ok report ->
       let articles := articles_of d in
       let total := total_records report in
       total = len articles
       /\ title_present_count report = present_count (py "title") articles
       /\ content_present_count report
          = present_count (py "content") articles
       /\ url_present_count report = present_count (py "url") articles
       /\ date_present_count report
          = present_count (py "published") articles
       /\ (total = 0 ->
           title_percent report = VInt 0 /\ content_percent report = VInt 0
           /\ url_percent report = VInt 0 /\ date_percent report = VInt 0)
       /\ (total > 0 ->
           title_percent report
           = VFloat (rounded_percent (title_present_count report) total)
           /\ content_percent report
              = VFloat (rounded_percent (content_present_count report) total)
           /\ url_percent report
              = VFloat (rounded_percent (url_present_count report) total)
           /\ date_percent report
              = VFloat (rounded_percent (date_present_count report) total)).
Proof.
  split.
  - apply validate_mappings_returns.
  - intros report E.
    pose proof (validate_returns_on_mappings d report E) as H.
    rewrite validate_articles in E.
    destruct (for_each_dicts _ H (mk_tally 0 0 0 0 0 0 []))
      as (st & Est & _ & Ht & Hc & Hu & Hd).
    rewrite Est in E. cbn [bind] in E.
    cbn [t_title t_content t_url t_date] in Ht, Hc, Hu, Hd.
    destruct (Z.eq_dec (len (articles_of d)) 0) as [E0|E0].
    + rewrite E0, !percent_zero in E. cbn [bind] in E.
      injection E as <-. cbn. rewrite E0.
      repeat split; try assumption; lia.
    + rewrite !(percent_pos _ _ E0) in E. cbn [bind] in E.
      injection E as <-. cbn.
      repeat split; try assumption; lia.
Qed.

End ValidatorFacts.

(* ===================================================================== *)
(** ** The report *)
(* ===================================================================== *)

Lemma pystr_compare_antisym (a b : pystr) :
  pystr_compare b a = CompOpp (pystr_compare a b).
Proof.
  revert b. induction a as [|x a IH]; intros [|y b]; cbn; try reflexivity.
  rewrite (Z.compare_antisym x y).
  destruct (x ?= y); cbn; auto.
Qed.

Lemma pystr_compare_eq (a b : pystr) : pystr_compare a b = Eq -> a = b.
Proof.
  revert b. induction a as [|x a IH]; intros [|y b]; cbn; try discriminate; auto.
  destruct (x ?= y) eqn:E; try discriminate.
  apply Z.compare_eq in E. intros H. f_equal; auto.
Qed.

Lemma pystr_compare_lt_trans (a b c : pystr) :
  pystr_compare a b = Lt -> pystr_compare b c = Lt -> pystr_compare a c = Lt.
Proof.
  revert b c. induction a as [|x a IH]; intros [|y b] [|z c]; cbn;
    try discriminate; auto.
  destruct (x ?= y) eqn:Exy; try discriminate;
    destruct (y ?= z) eqn:Eyz; try discriminate; intros H1 H2.
  - apply Z.compare_eq in Exy, Eyz. subst. rewrite Z.compare_refl. eauto.
  - apply Z.compare_eq in Exy. subst. rewrite Eyz. reflexivity.
  - apply Z.compare_eq in Eyz. subst. rewrite Exy. reflexivity.
  - assert ((x ?= z) = Lt) as -> by (rewrite Z.compare_lt_iff in *; lia).
    reflexivity.
Qed.

Lemma pystr_le_trans (a b c : pystr) :
  pystr_compare a b <> Gt -> pystr_compare b c <> Gt ->
  pystr_compare a c <> Gt.
Proof.
  intros H1 H2.
  destruct (pystr_compare a b) eqn:E1; [| |congruence];
    destruct (pystr_compare b c) eqn:E2; [| |congruence | | |congruence].
  - apply pystr_compare_eq in E1. subst. congruence.
  - apply pystr_compare_eq in E1. subst. congruence.
  - apply pystr_compare_eq in E2. subst. congruence.
  - rewrite (pystr_compare_lt_trans a b c E1 E2). discriminate.
Qed.

Lemma key_lt_false (x y : pystr * Z) : key_lt y x = false -> row_order x y.
Proof.
  unfold key_lt, row_order. destruct (- snd y ?= - snd x) eqn:E.
  - apply Z.compare_eq in E.
    rewrite (pystr_compare_antisym (fst x) (fst y)).
    destruct (pystr_compare (fst x) (fst y)); cbn; intros H;
      try discriminate; right; split; try lia; discriminate.
  - discriminate.
  - intros _. left. rewrite Z.compare_gt_iff in E. lia.
Qed.

Lemma key_lt_true (x y : pystr * Z) : key_lt y x = true -> row_order y x.
Proof.
  unfold key_lt, row_order. destruct (- snd y ?= - snd x) eqn:E.
  - apply Z.compare_eq in E.
    destruct (pystr_compare (fst y) (fst x)); intros H;
      try discriminate; right; split; try lia; discriminate.
  - intros _. left. rewrite Z.compare_lt_iff in E. lia.
  - discriminate.
Qed.

Lemma row_order_trans (a b c : pystr * Z) :
  row_order a b -> row_order b c -> row_order a c.
Proof.
  unfold row_order. intros [H1|[H1 L1]] [H2|[H2 L2]];
    try (left; lia).
  right. split; [lia|]. eapply pystr_le_trans; eassumption.
Qed.

Lemma insert_by_perm (lt : pystr * Z -> pystr * Z -> bool) (x : pystr * Z)
  (l : list (pystr * Z)) :
  Permutation (insert_by lt x l) (x :: l).
Proof.
  induction l as [|y l IH]; cbn.
  - apply Permutation_refl.
  - destruct (lt y x).
    + apply perm_trans with (y :: x :: l).
      * apply perm_skip, IH.
      * apply perm_swap.
    + apply Permutation_refl.
Qed.

Lemma sorted_by_perm (lt : pystr * Z -> pystr * Z -> bool)
  (l : list (pystr * Z)) :
  Permutation (sorted_by lt l) l.
Proof.
  induction l as [|x l IH]; cbn.
  - apply perm_nil.
  - apply perm_trans with (x :: sorted_by lt l).
    + apply insert_by_perm.
    + apply perm_skip, IH.
Qed.

Lemma insert_by_sorted (x : pystr * Z) (l : list (pystr * Z)) :
  StronglySorted row_order l ->
  StronglySorted row_order (insert_by key_lt x l).
Proof.
  induction 1 as [|y l Hs IH Hy]; cbn.
  - constructor; constructor.
  - destruct (key_lt y x) eqn:E.
    + constructor; [exact IH|].
      apply (Permutation_Forall (Permutation_sym (insert_by_perm key_lt x l))).
      constructor; [apply key_lt_true, E | exact Hy].
    + pose proof (key_lt_false x y E) as Hxy.
      constructor; [constructor; assumption|].
      constructor; [exact Hxy|].
      eapply Forall_impl; [|exact Hy].
      intros z Hz. eapply row_order_trans; eassumption.
Qed.

Lemma sorted_by_sorted (l : list (pystr * Z)) :
  StronglySorted row_order (sorted_by key_lt l).
Proof.
  induction l as [|x l IH]; cbn.
  - constructor.
  - apply insert_by_sorted, IH.
Qed.

Section Report.
Context {rt : Runtime}.

(** C8: for every report, the text [write_report] writes is the fixed
    head followed by one row per entry of [error_counts], and the rows
    are sorted by descending count, equal counts by ascending reason
    code. *)
Theorem write_report_rows_sorted (report : QualityReport) :
  exists rows,
    write_report report
    = join [10] (report_head report ++ map failure_row rows) ++ [10]
    /\ Permutation rows (error_counts report)
    /\ StronglySorted row_order rows.
Proof.
  exists (sorted_by key_lt (error_counts report)). split.
  - reflexivity.
  - split.
    + apply sorted_by_perm.
    + apply sorted_by_sorted.
Qed.
End Report.

(* ===================================================================== *)
(** ** Dates *)
(* ===================================================================== *)

Section DateFacts.
Context {rt : Runtime}.

Lemma strptime_cases (s format : pystr) :
  (exists dt, strptime s format = Ok dt) \/ strptime s format = Raise ValueError.
Proof.
  unfold strptime.
  destruct (compile_format false format) as [ds|]; [|now right].
  destruct (match_format ds s _) as [[dt rest]|]; [|now right].
  destruct (negb (is_empty rest)); [now right|].
  destruct (valid_fields dt); [left; eauto | now right].
Qed.

Lemma fromisoformat_cases (s : pystr) :
  (exists dt, datetime_fromisoformat s = Ok dt)
  \/ datetime_fromisoformat s = Raise ValueError.
Proof.
  unfold datetime_fromisoformat. destruct (fromisoformat s); [left; eauto | now right].
Qed.

Lemma index_in_range (s : pystr) (i : nat) :
  Z.of_nat i < len s -> exists c, index s i = Ok c.
Proof.
  unfold len, index. intros H.
  destruct (nth_error s i) eqn:E; [eauto|].
  apply nth_error_None in E. lia.
Qed.

(** The statements after a successful [strptime] in the month-name
    strategy: the two index expressions are guarded by the length. *)
Lemma offset_suffix_ok (s iso : pystr) :
  exists out,
    (has_offset <-
       (if len s >? 20 then
          c <- index s 20 ;;
          Ok (contains (py "-+") c && (len s >=? 26))
        else Ok false) ;;
     if has_offset then
       colon <-
         (if len s >? 25 then
            c <- index s 23 ;;
            Ok (c =? 58)
          else Ok false) ;;
       Ok (iso ++ (if colon then slice s 20 26
                   else slice s 20 23 ++ py ":" ++ slice s 23 25))
     else Ok iso) = Ok out.
Proof.
  destruct (len s >? 20) eqn:H20.
  - destruct (index_in_range s 20) as [c ->]; [lia|]. cbn [bind].
    destruct (contains (py "-+") c && (len s >=? 26)); [|eauto].
    destruct (len s >? 25) eqn:H25.
    + destruct (index_in_range s 23) as [c' ->]; [lia|]. cbn [bind]. eauto.
    + cbn [bind]. eauto.
  - cbn [bind]. eauto.
Qed.

Lemma try_candidate_ok (candidate : pystr) (next : result pystr) :
  (exists out, next = Ok out) ->
  exists out, try_candidate candidate next = Ok out.
Proof.
  intros [o ->]. unfold try_candidate.
  destruct (strptime_cases candidate (py "%b. %d, %Y")) as [[dt ->]| ->];
    cbn [bind try_except_value_type]; [eauto|].
  destruct (strptime_cases candidate (py "%B %d, %Y")) as [[dt ->]| ->];
    cbn [bind try_except_value_type]; eauto.
Qed.

Lemma try_candidate_fails (candidate : pystr) (next : result pystr) :
  strptime candidate (py "%b. %d, %Y") = Raise ValueError ->
  strptime candidate (py "%B %d, %Y") = Raise ValueError ->
  try_candidate candidate next = next.
Proof. intros H1 H2. unfold try_candidate. rewrite H1, H2. reflexivity. Qed.

Lemma parse_date_to_iso_str (s : pystr) :
  strip s <> [] ->
  parse_date_to_iso (VStr s)
  = let s := strip s in
    try_except_value_type
      (dt <- datetime_fromisoformat (replace 90 (py "+00:00") s) ;;
       Ok (isoformat dt))
      (try_except_value_type
         (dt <- strptime (slice s 0 20) (py "%Y-%b-%dT%H:%M:%S") ;;
          let iso := strftime dt in
          has_offset <-
            (if len s >? 20 then
               c <- index s 20 ;;
               Ok (contains (py "-+") c && (len s >=? 26))
             else Ok false) ;;
          if has_offset then
            colon <-
              (if len s >? 25 then
                 c <- index s 23 ;;
                 Ok (c =? 58)
               else Ok false) ;;
            Ok (iso ++ (if colon then slice s 20 26
                        else slice s 20 23 ++ py ":" ++ slice s 23 25))
          else Ok iso)
         (let prefix_removed := strip (sub_updated s) in
          try_candidate prefix_removed (try_candidate s (Ok [])))).
Proof.
  intros H. unfold parse_date_to_iso.
  destruct s as [|c s]; [now destruct H|].
  cbn [truthy is_str is_empty negb orb].
  destruct (strip (c :: s)) eqn:E; [now destruct H|]. reflexivity.
Qed.

Lemma parse_date_to_iso_blank (v : pyval) :
  (is_str v = false \/ exists s, v = VStr s /\ strip s = []) ->
  parse_date_to_iso v = Ok [].
Proof.
  intros [H | (s & -> & H)].
  - unfold parse_date_to_iso. rewrite H, orb_true_r. reflexivity.
  - unfold parse_date_to_iso. destruct s; [reflexivity|].
    cbn [truthy is_str is_empty negb orb]. rewrite H. reflexivity.
Qed.

Lemma parse_date_to_iso_returns (v : pyval) :
  exists iso, parse_date_to_iso v = Ok iso.
Proof.
  destruct (is_str v) eqn:Hs.
  2:{ exists []. apply parse_date_to_iso_blank. now left. }
  destruct v; try discriminate.
  destruct (list_eq_dec Z.eq_dec (strip s) []) as [E|E].
  { exists []. apply parse_date_to_iso_blank. right. eauto. }
  rewrite (parse_date_to_iso_str s E). cbv zeta.
  destruct (fromisoformat_cases (replace 90 (py "+00:00") (strip s)))
    as [[dt ->]| ->]; cbn [bind try_except_value_type]; [eauto|].
  destruct (strptime_cases (slice (strip s) 0 20) (py "%Y-%b-%dT%H:%M:%S"))
    as [[dt ->]| ->]; cbn [bind].
  - cbv zeta. destruct (offset_suffix_ok (strip s) (strftime dt)) as [out ->].
    cbn [try_except_value_type]. eauto.
  - cbn [try_except_value_type].
    apply try_candidate_ok, try_candidate_ok. eauto.
Qed.

(** C4: for every value, [parse_date_to_iso] returns a string and raises
    nothing; it returns the empty string for a value that is not a
    string, for a string that is blank once stripped, and whenever every
    parse strategy fails. *)
Theorem parse_date_to_iso_never_raises (v : pyval) :
  (exists iso, parse_date_to_iso v = Ok iso)
  /\ (is_str v = false -> parse_date_to_iso v = Ok [])
  /\ (forall s, v = VStr s -> strip s = [] -> parse_date_to_iso v = Ok [])
  /\ (forall s, v = VStr s -> strategies_fail (strip s) ->
      parse_date_to_iso v = Ok []).
Proof.
  split; [apply parse_date_to_iso_returns|].
  split; [intros H; apply parse_date_to_iso_blank; now left|].
  split.
  - intros s -> H. apply parse_date_to_iso_blank. right. eauto.
  - intros s -> (Hiso & Hmon & Hcand).
    destruct (list_eq_dec Z.eq_dec (strip s) []) as [E|E].
    { apply parse_date_to_iso_blank. right. eauto. }
    rewrite (parse_date_to_iso_str s E). cbv zeta.
    rewrite Hiso, Hmon. cbn [bind try_except_value_type].
    destruct (Hcand (strip (sub_updated (strip s)))) as [H1 H2]; [now left|].
    destruct (Hcand (strip s)) as [H3 H4]; [now right|].
    rewrite (try_candidate_fails _ _ H1 H2).
    apply (try_candidate_fails _ _ H3 H4).
Qed.

End DateFacts.

(* ===================================================================== *)
(** ** [clean_text] *)
(* ===================================================================== *)

(** *** Substitution *)

Lemma re_sub_from_skip (m : pystr -> option (nat * pystr)) (s : pystr) :
  forall k, re_sub_from m k s = re_sub m (skipn k s).
Proof.
  induction s as [|c rest IH]; intros [|k]; try reflexivity.
  cbn [re_sub_from skipn]. apply IH.
Qed.

(** The scan of [re.sub] as an equation: after a match, it goes on with
    what follows the match. *)
Lemma re_sub_cons (m : pystr -> option (nat * pystr)) (c : Z) (rest : pystr) :
  re_sub m (c :: rest)
  = match m (c :: rest) with
    | Some (S k, repl) => repl ++ re_sub m (skipn k rest)
    | _ => c :: re_sub m rest
    end.
Proof.
  unfold re_sub at 1. cbn [re_sub_from].
  destruct (m (c :: rest)) as [[[|k] repl]|]; try reflexivity.
  rewrite re_sub_from_skip. reflexivity.
Qed.

Lemma re_sub_from_Forall (P : Z -> Prop) (m : pystr -> option (nat * pystr)) :
  (forall x k r, m x = Some (k, r) -> Forall P r) ->
  forall s k, Forall P s -> Forall P (re_sub_from m k s).
Proof.
  intros Hm. induction s as [|c rest IH]; intros k H; [constructor|].
  inversion H as [|? ? Hc Hrest]; subst. cbn [re_sub_from].
  destruct k as [|k]; [|now apply IH].
  destruct (m (c :: rest)) as [[[|k] repl]|] eqn:E.
  - constructor; [assumption | now apply IH].
  - apply Forall_app. split; [eapply Hm, E | now apply IH].
  - constructor; [assumption | now apply IH].
Qed.

Lemma re_sub_Forall (P : Z -> Prop) (m : pystr -> option (nat * pystr))
  (s : pystr) :
  (forall x k r, m x = Some (k, r) -> Forall P r) ->
  Forall P s -> Forall P (re_sub m s).
Proof. intros Hm H. now apply re_sub_from_Forall. Qed.

(** *** [span] *)

Lemma span_le (p : Z -> bool) (s : pystr) : (span p s <= List.length s)%nat.
Proof. induction s as [|c s IH]; cbn; [lia|]. destruct (p c); cbn; lia. Qed.

(** What follows the longest prefix is empty or starts with a character
    outside the class. *)
Lemma span_rest (p : Z -> bool) (s : pystr) :
  skipn (span p s) s = [] \/
  exists c r, skipn (span p s) s = c :: r /\ p c = false.
Proof.
  induction s as [|c s IH]; cbn; [now left|].
  destruct (p c) eqn:E; cbn; [exact IH|]. right. eauto.
Qed.

Lemma span_all (p : Z -> bool) (s : pystr) :
  skipn (span p s) s = [] -> forallb p s = true.
Proof.
  induction s as [|c s IH]; cbn; [reflexivity|].
  destruct (p c); cbn; [exact IH | discriminate].
Qed.

Lemma skipn_length_le {A} (k : nat) (l : list A) :
  (List.length (skipn k l) <= List.length l)%nat.
Proof. rewrite length_skipn. lia. Qed.

(** *** Whitespace: [re.sub(r"\s+", " ", s).strip()] *)

Lemma collapse_cons (c : Z) (rest : pystr) :
  collapse (c :: rest)
  = if isspace c then 32 :: collapse (skipn (span isspace rest) rest)
    else c :: collapse rest.
Proof.
  unfold collapse. rewrite re_sub_cons. unfold ws_match. cbn [span].
  destruct (isspace c); reflexivity.
Qed.

Lemma collapse_spaced_upto (n : nat) :
  forall s, (List.length s <= n)%nat -> spaced true (collapse s) = true.
Proof.
  induction n as [|n IH]; intros [|c rest] Hn; try reflexivity;
    cbn [List.length] in Hn; [lia|].
  rewrite collapse_cons. destruct (isspace c) eqn:Ec.
  - assert (Hlen : (List.length (skipn (span isspace rest) rest) <= n)%nat)
      by (pose proof (skipn_length_le (span isspace rest) rest); lia).
    cbn [spaced]. rewrite (IH _ Hlen), andb_true_r. cbn.
    destruct (span_rest isspace rest) as [-> | (c' & r & -> & Hc')].
    + reflexivity.
    + rewrite collapse_cons, Hc'. cbn. rewrite Hc'. reflexivity.
  - cbn [spaced]. rewrite Ec. cbn. apply IH. lia.
Qed.

Lemma collapse_spaced (s : pystr) : spaced true (collapse s) = true.
Proof. apply (collapse_spaced_upto (List.length s)). lia. Qed.

(** From [H : spaced e (c :: t) = true], what it says of [c]. *)
Ltac spaced_head H Hc :=
  cbn [spaced] in H; apply andb_prop in H; destruct H as [Hc _].

Lemma spaced_tail (e : bool) (c : Z) (t : pystr) :
  spaced e (c :: t) = true -> spaced e t = true.
Proof. cbn [spaced]. intros H. apply andb_prop in H. apply H. Qed.

Lemma lstrip_spaced (t : pystr) :
  spaced true t = true -> spaced true (lstrip t) = true.
Proof.
  induction t as [|c t IH]; [reflexivity|]. intros H. cbn [lstrip].
  destruct (isspace c); [apply IH, (spaced_tail _ _ _ H) | exact H].
Qed.

Lemma lstrip_head (t : pystr) : head_not_space (lstrip t) = true.
Proof.
  induction t as [|c t IH]; [reflexivity|]. cbn [lstrip].
  destruct (isspace c) eqn:E; [exact IH|]. cbn. rewrite E. reflexivity.
Qed.

Lemma rstrip_cons_keep (c : Z) (t : pystr) :
  isspace c = false -> exists r, rstrip (c :: t) = c :: r.
Proof.
  intros H. cbn [rstrip]. destruct (rstrip t); rewrite ?H; eauto.
Qed.

Lemma rstrip_head (t : pystr) :
  head_not_space t = true -> head_not_space (rstrip t) = true.
Proof.
  destruct t as [|c t]; [reflexivity|]. cbn [head_not_space]. intros H.
  destruct (rstrip_cons_keep c t) as [r ->]; [now destruct (isspace c)|].
  exact H.
Qed.

Lemma rstrip_spaced (t : pystr) :
  spaced true t = true -> spaced false (rstrip t) = true.
Proof.
  induction t as [|c t IH]; [reflexivity|]. intros H.
  pose proof (IH (spaced_tail _ _ _ H)) as IH'.
  spaced_head H Hc.
  cbn [rstrip]. destruct (rstrip t) as [|x r] eqn:Er.
  - destruct (isspace c) eqn:Ec; [reflexivity|]. cbn. rewrite Ec. reflexivity.
  - change (spaced false (c :: x :: r))
      with ((if isspace c then (c =? 32) && negb (isspace x) else true)
            && spaced false (x :: r)).
    rewrite IH', andb_true_r.
    destruct (isspace c); [|reflexivity].
    apply andb_prop in Hc. destruct Hc as [-> Hnext]. cbn [andb].
    destruct t as [|c' t']; [discriminate Er|].
    destruct (rstrip_cons_keep c' t') as [r' Hr'];
      [now destruct (isspace c')|].
    rewrite Hr' in Er. injection Er as <- _. exact Hnext.
Qed.

Lemma strip_collapse_spaced (s : pystr) :
  spaced false (strip (collapse s)) = true
  /\ head_not_space (strip (collapse s)) = true.
Proof.
  unfold strip. split.
  - apply rstrip_spaced, lstrip_spaced, collapse_spaced.
  - apply rstrip_head, lstrip_head.
Qed.

(** A string in that form is left as it is. *)
Lemma spaced_collapse (t : pystr) :
  spaced false t = true -> collapse t = t.
Proof.
  induction t as [|c t IH]; [reflexivity|]. intros H.
  pose proof (IH (spaced_tail _ _ _ H)) as IH'.
  spaced_head H Hc.
  rewrite collapse_cons. destruct (isspace c); [|now rewrite IH'].
  apply andb_prop in Hc. destruct Hc as [Hc Hnext].
  apply Z.eqb_eq in Hc. subst c.
  destruct t as [|c' t']; [discriminate|].
  cbn [span]. destruct (isspace c'); [discriminate|].
  cbn [skipn]. now rewrite IH'.
Qed.

Lemma spaced_lstrip (t : pystr) : head_not_space t = true -> lstrip t = t.
Proof.
  destruct t as [|c t]; [reflexivity|]. cbn. now destruct (isspace c).
Qed.

Lemma spaced_rstrip (t : pystr) :
  spaced false t = true -> rstrip t = t.
Proof.
  induction t as [|c t IH]; [reflexivity|]. intros H.
  pose proof (IH (spaced_tail _ _ _ H)) as IH'.
  spaced_head H Hc.
  cbn [rstrip]. rewrite IH'. destruct t as [|c' t']; [|reflexivity].
  destruct (isspace c); [|reflexivity].
  apply andb_prop in Hc. destruct Hc as [_ Hc]. discriminate.
Qed.

Lemma spaced_strip_collapse (t : pystr) :
  spaced false t = true -> head_not_space t = true ->
  strip (collapse t) = t.
Proof.
  intros H1 H2. rewrite (spaced_collapse t H1). unfold strip.
  rewrite (spaced_lstrip t H2). apply (spaced_rstrip t H1).
Qed.

Lemma spaced_space_is_32 (e : bool) (t : pystr) :
  spaced e t = true -> Forall (fun c => isspace c = true -> c = 32) t.
Proof.
  induction t as [|c t IH]; [constructor|]. intros H.
  constructor; [|apply IH, (spaced_tail _ _ _ H)].
  spaced_head H Hc.
  intros Hs. rewrite Hs in Hc. apply andb_prop in Hc.
  now apply Z.eqb_eq.
Qed.

Lemma lstrip_Forall (P : Z -> Prop) (t : pystr) :
  Forall P t -> Forall P (lstrip t).
Proof.
  induction 1 as [|c t Hc Ht IH]; [constructor|]. cbn [lstrip].
  destruct (isspace c); [exact IH | now constructor].
Qed.

Lemma rstrip_Forall (P : Z -> Prop) (t : pystr) :
  Forall P t -> Forall P (rstrip t).
Proof.
  induction 1 as [|c t Hc Ht IH]; [constructor|]. cbn [rstrip].
  destruct (rstrip t); [destruct (isspace c); repeat constructor; assumption|].
  now constructor.
Qed.

Lemma strip_Forall (P : Z -> Prop) (t : pystr) :
  Forall P t -> Forall P (strip t).
Proof. intros H. now apply rstrip_Forall, lstrip_Forall. Qed.

Lemma collapse_Forall (P : Z -> Prop) (t : pystr) :
  P 32 -> Forall P t -> Forall P (collapse t).
Proof.
  intros H32. apply re_sub_Forall. intros x k r. unfold ws_match.
  destruct (span isspace x); [discriminate|]. intros [= _ <-].
  now constructor.
Qed.

Create HintDb chars.
#[local] Hint Resolve lstrip_Forall rstrip_Forall strip_Forall collapse_Forall
  : chars.

(** *** Tags: [re.sub(r"<[^>]+>", "", s)] *)

Lemma tag_match_none (rest : pystr) :
  tag_match (60 :: rest) = None <-> unclosed rest = true.
Proof.
  unfold tag_match. fold not_gt. cbn [Z.eqb Pos.eqb].
  destruct rest as [|c rest]; [cbn; tauto|].
  cbn [span unclosed forallb]. unfold not_gt at 1 3.
  destruct (Z.eqb_spec c 62) as [->|Hc]; cbn [negb orb andb skipn].
  - tauto.
  - assert (not_gt c = true) as ->
      by (unfold not_gt; now apply negb_true_iff, Z.eqb_neq).
    cbn [andb].
    destruct (span_rest not_gt rest) as [E | (x & r & E & Hx)]; rewrite E.
    + split; [intros _; now apply span_all | reflexivity].
    + assert (x = 62) as ->
        by (unfold not_gt in Hx; apply negb_false_iff, Z.eqb_eq in Hx; exact Hx).
      cbn [Z.eqb Pos.eqb]. split; [discriminate|]. intros H. exfalso.
      assert (Hin : In 62 rest).
      { rewrite <- (firstn_skipn (span not_gt rest) rest), E.
        apply in_or_app. right. now left. }
      rewrite forallb_forall in H. specialize (H 62 Hin). discriminate.
Qed.

Lemma tag_match_other (c : Z) (rest : pystr) :
  c <> 60 -> tag_match (c :: rest) = None.
Proof.
  intros H. unfold tag_match. now destruct (Z.eqb_spec c 60).
Qed.

Lemma tag_match_repl (x : pystr) (k : nat) (r : pystr) :
  tag_match x = Some (k, r) -> r = [] /\ exists n, k = S (S n).
Proof.
  unfold tag_match. destruct x as [|c rest]; [discriminate|].
  destruct (c =? 60); [|discriminate].
  destruct (span _ rest) as [|n] eqn:En; [discriminate|].
  destruct (skipn (S n) rest) as [|c' r']; [discriminate|].
  destruct (c' =? 62); [|discriminate].
  intros [= <- <-]. eauto.
Qed.

Lemma strip_tags_Forall (P : Z -> Prop) (s : pystr) :
  Forall P s -> Forall P (strip_tags s).
Proof.
  apply re_sub_Forall. intros x k r H.
  destruct (tag_match_repl x k r H) as [-> _]. constructor.
Qed.

Lemma tagfree_cons (c : Z) (t : pystr) :
  tagfree (c :: t) = true <->
  (c = 60 -> unclosed t = true) /\ tagfree t = true.
Proof.
  cbn [tagfree]. destruct (Z.eq_dec c 60) as [->|Hc].
  - destruct (tag_match (60 :: t)) eqn:E.
    + split; [discriminate|]. intros [H _].
      apply tag_match_none in H; [congruence | reflexivity].
    + apply tag_match_none in E. tauto.
  - rewrite (tag_match_other c t Hc). tauto.
Qed.

Lemma tagfree_skipn (k : nat) (t : pystr) :
  tagfree t = true -> tagfree (skipn k t) = true.
Proof.
  revert t. induction k as [|k IH]; intros [|c t] H; try exact H.
  cbn [skipn]. apply IH. now apply tagfree_cons in H.
Qed.

Lemma tagfree_fixed (t : pystr) : tagfree t = true -> strip_tags t = t.
Proof.
  induction t as [|c t IH]; [reflexivity|]. intros H.
  unfold strip_tags. rewrite re_sub_cons.
  cbn [tagfree] in H. destruct (tag_match (c :: t)); [discriminate|].
  f_equal. now apply IH.
Qed.

Lemma forallb_not_gt (t : pystr) :
  forallb not_gt t = true <-> Forall (fun c => c <> 62) t.
Proof.
  rewrite forallb_forall, Forall_forall. unfold not_gt.
  split; intros H x Hx; specialize (H x Hx).
  - intros ->. discriminate.
  - now apply negb_true_iff, Z.eqb_neq.
Qed.

(** [unclosed] is kept by an operation [f] that keeps a leading [>] in
    place and introduces no [>]. *)
Lemma unclosed_kept (f : pystr -> pystr) (t : pystr) :
  (forall r, exists r', f (62 :: r) = 62 :: r') ->
  (Forall (fun c => c <> 62) t -> Forall (fun c => c <> 62) (f t)) ->
  unclosed t = true -> unclosed (f t) = true.
Proof.
  intros Hgt Hall H. destruct t as [|c r].
  - specialize (Hall (Forall_nil _)). apply forallb_not_gt in Hall.
    unfold unclosed. destruct (f []); [reflexivity|].
    rewrite Hall. apply orb_true_r.
  - cbn [unclosed] in H. destruct (Z.eqb_spec c 62) as [->|Hc].
    + destruct (Hgt r) as [r' ->]. reflexivity.
    + cbn [orb] in H. apply forallb_not_gt, Hall, forallb_not_gt in H.
      unfold unclosed. destruct (f (c :: r)); [reflexivity|].
      rewrite H. apply orb_true_r.
Qed.

Lemma strip_tags_cons_other (c : Z) (t : pystr) :
  c <> 60 -> strip_tags (c :: t) = c :: strip_tags t.
Proof.
  intros H. unfold strip_tags. rewrite re_sub_cons, (tag_match_other c t H).
  reflexivity.
Qed.

Lemma strip_tags_tagfree_upto (n : nat) :
  forall s, (List.length s <= n)%nat -> tagfree (strip_tags s) = true.
Proof.
  induction n as [|n IH]; intros [|c rest] Hn; try reflexivity;
    cbn [List.length] in Hn; [lia|].
  unfold strip_tags. rewrite re_sub_cons. fold strip_tags.
  destruct (tag_match (c :: rest)) as [[k r]|] eqn:E.
  - destruct (tag_match_repl _ _ _ E) as (-> & m & ->). cbn [app].
    apply IH. pose proof (skipn_length_le (S m) rest). lia.
  - apply tagfree_cons. split; [|apply IH; lia].
    intros ->. apply tag_match_none in E.
    apply (unclosed_kept strip_tags rest); [| |exact E].
    + intros r. exists (strip_tags r). apply strip_tags_cons_other. lia.
    + apply strip_tags_Forall.
Qed.

Lemma strip_tags_tagfree (s : pystr) : tagfree (strip_tags s) = true.
Proof. apply (strip_tags_tagfree_upto (List.length s)). lia. Qed.

Lemma collapse_tagfree_upto (n : nat) :
  forall t, (List.length t <= n)%nat ->
    tagfree t = true -> tagfree (collapse t) = true.
Proof.
  induction n as [|n IH]; intros [|c rest] Hn H; try reflexivity;
    cbn [List.length] in Hn; [lia|].
  apply tagfree_cons in H. destruct H as [Hc Hrest].
  rewrite collapse_cons. destruct (isspace c) eqn:Ec.
  - apply tagfree_cons. split; [intros [=]|].
    apply IH; [|now apply tagfree_skipn].
    pose proof (skipn_length_le (span isspace rest) rest). lia.
  - apply tagfree_cons. split; [|apply IH; [lia | exact Hrest]].
    intros ->. apply (unclosed_kept collapse rest); [| |now apply Hc].
    + intros r. exists (collapse r). now rewrite collapse_cons.
    + apply collapse_Forall. lia.
Qed.

Lemma collapse_tagfree (t : pystr) :
  tagfree t = true -> tagfree (collapse t) = true.
Proof. apply (collapse_tagfree_upto (List.length t)). lia. Qed.

Lemma lstrip_suffix (t : pystr) : exists k, lstrip t = skipn k t.
Proof.
  induction t as [|c t [k IH]]; [now exists O|]. cbn [lstrip].
  destruct (isspace c); [now exists (S k) | now exists O].
Qed.

Lemma lstrip_tagfree (t : pystr) :
  tagfree t = true -> tagfree (lstrip t) = true.
Proof.
  intros H. destruct (lstrip_suffix t) as [k ->]. now apply tagfree_skipn.
Qed.

Lemma rstrip_tagfree (t : pystr) :
  tagfree t = true -> tagfree (rstrip t) = true.
Proof.
  induction t as [|c t IH]; [reflexivity|]. intros H.
  apply tagfree_cons in H. destruct H as [Hc Ht].
  specialize (IH Ht). cbn [rstrip].
  destruct (rstrip t) as [|x r] eqn:Er.
  - destruct (isspace c); [reflexivity|].
    apply tagfree_cons. split; reflexivity.
  - apply tagfree_cons. split; [|exact IH].
    intros ->. rewrite <- Er.
    apply (unclosed_kept rstrip t); [| |now apply Hc].
    + intros r0. now apply rstrip_cons_keep.
    + apply rstrip_Forall.
Qed.

Lemma strip_collapse_tagfree (t : pystr) :
  tagfree t = true -> tagfree (strip (collapse t)) = true.
Proof.
  intros H. unfold strip.
  now apply rstrip_tagfree, lstrip_tagfree, collapse_tagfree.
Qed.

(** *** Invisible characters and the whole of [clean_text] *)

Lemma replace_one (old new : Z) (s : pystr) :
  replace old [new] s = map (fun x => if x =? old then new else x) s.
Proof.
  unfold replace. induction s as [|c s IH]; [reflexivity|].
  cbn [flat_map map]. rewrite IH. now destruct (c =? old).
Qed.

Lemma invisible_to_space (s : pystr) :
  fold_left (fun s char => replace char [32] s) INVISIBLE_TO_SPACE s
  = map to_space s.
Proof.
  unfold INVISIBLE_TO_SPACE. cbn [fold_left].
  rewrite !replace_one, !map_map. apply map_ext. intros x.
  unfold to_space, invisible, INVISIBLE_TO_SPACE, contains. cbn [existsb].
  repeat match goal with
         | |- context [?a =? ?b] => destruct (Z.eqb_spec a b)
         end; subst; try reflexivity; try lia.
Qed.

Lemma isspace_32 : isspace 32 = true.
Proof. reflexivity. Qed.

Lemma settled_32 : settled 32.
Proof.
  split; [split; [lia | left; reflexivity] | reflexivity].
Qed.

Lemma to_space_settled (c : Z) : plain c -> settled (to_space c).
Proof.
  intros Hc. unfold to_space. destruct (invisible c) eqn:E.
  - apply settled_32.
  - split; assumption.
Qed.

Lemma to_space_fixed (c : Z) : invisible c = false -> to_space c = c.
Proof. intros H. unfold to_space. now rewrite H. Qed.

Lemma no_amp (s : pystr) :
  Forall (fun c => c <> 38) s -> contains s 38 = false.
Proof.
  induction 1 as [|c s Hc _ IH]; [reflexivity|].
  unfold contains in *. cbn [existsb]. rewrite IH, orb_false_r.
  apply Z.eqb_neq. congruence.
Qed.

Lemma filter_all (f : Z -> bool) (t : pystr) :
  Forall (fun c => f c = true) t -> filter f t = t.
Proof.
  induction 1 as [|c t Hc _ IH]; [reflexivity|]. cbn. now rewrite Hc, IH.
Qed.

Lemma kept_split (t : pystr) :
  filter (fun c => negb (c =? 127))
    (filter (fun c => (32 <=? c) || contains [9; 10; 13] c) t)
  = filter kept t.
Proof.
  induction t as [|c t IH]; [reflexivity|]. cbn [filter]. unfold kept at 1.
  destruct ((32 <=? c) || contains [9; 10; 13] c); cbn [filter andb];
    rewrite IH; reflexivity.
Qed.

Lemma settled_kept (c : Z) :
  settled c -> (isspace c = true -> c = 32) -> kept c = true.
Proof.
  intros [[_ [Hs|[H1 H2]]] _] Hsp; unfold kept.
  - rewrite (Hsp Hs). reflexivity.
  - apply andb_true_iff. split.
    + apply orb_true_iff. left. now apply Z.leb_le.
    + now apply negb_true_iff, Z.eqb_neq.
Qed.

(** *** Character references: [html.unescape] *)

Lemma span_Forall (p : Z -> bool) (s : pystr) (n : nat) :
  (n <= span p s)%nat -> Forall (fun c => p c = true) (firstn n s).
Proof.
  revert n. induction s as [|c s IH]; intros [|n] H; cbn [firstn];
    try constructor; cbn [span] in H; destruct (p c) eqn:E;
    try reflexivity; try lia.
  apply IH. lia.
Qed.

Lemma firstn_add {A} (n m : nat) (l : list A) :
  firstn (n + m) l = firstn n l ++ firstn m (skipn n l).
Proof.
  revert l. induction n as [|n IH]; intros [|a l]; cbn [firstn skipn Nat.add app];
    try reflexivity.
  - now rewrite firstn_nil.
  - now rewrite IH.
Qed.

Lemma semi_no_amp (r : pystr) :
  Forall (fun c => c <> 38) (firstn (semi r) r).
Proof.
  destruct r as [|c r]; cbn [semi]; [constructor|].
  destruct (Z.eqb_spec c 59); cbn [firstn]; repeat constructor. lia.
Qed.

Lemma is_digit_no_amp (c : Z) : is_digit c = true -> c <> 38.
Proof. unfold is_digit. lia. Qed.

Lemma is_hex_no_amp (c : Z) : is_hex c = true -> c <> 38.
Proof.
  unfold is_hex, hex_value, is_digit.
  destruct ((48 <=? c) && (c <=? 57)) eqn:E1; [lia|].
  destruct ((97 <=? c) && (c <=? 102)) eqn:E2; [lia|].
  destruct ((65 <=? c) && (c <=? 70)) eqn:E3; [lia | discriminate].
Qed.

Lemma name_char_no_amp (c : Z) : name_char c = true -> c <> 38.
Proof. unfold name_char. lia. Qed.

(** The characters of a match: digits or name characters, and [;]. *)
Lemma reference_no_amp (p : Z -> bool) (r : pystr) (n : nat) :
  (forall c, p c = true -> c <> 38) -> (n <= span p r)%nat ->
  Forall (fun c => c <> 38) (firstn (n + semi (skipn n r)) r).
Proof.
  intros Hp Hn. rewrite firstn_add. apply Forall_app. split.
  - eapply Forall_impl; [|apply (span_Forall p r n Hn)]. exact Hp.
  - apply semi_no_amp.
Qed.

Section References.
Context {rt : Runtime}.

Lemma decimal_match_cases (r1 : pystr) :
  match decimal_match (35 :: r1) with
  | None => too_many_digits (Z.of_nat (span is_digit r1)) = false
  | Some (k, repl) =>
      Forall (fun c => c <> 38) (firstn k (35 :: r1))
      /\ if too_many_digits (Z.of_nat (span is_digit r1))
         then repl = Raise ValueError
         else exists t, repl = Ok t
  end.
Proof.
  unfold decimal_match. rewrite Z.eqb_refl.
  destruct (span is_digit r1) as [|n] eqn:E.
  - reflexivity.
  - split.
    + change (1 + S n + semi (skipn (S n) r1))%nat
        with (S (S n + semi (skipn (S n) r1))).
      rewrite firstn_cons. constructor; [lia|].
      apply (reference_no_amp is_digit); [apply is_digit_no_amp | lia].
    + unfold int_decimal, len. rewrite length_firstn.
      pose proof (span_le is_digit r1) as Hle.
      rewrite Nat.min_l by lia.
      destruct (too_many_digits (Z.of_nat (S n))); cbn [bind]; eauto.
Qed.

Lemma decimal_match_head (h : Z) (r1 : pystr) :
  h <> 35 -> decimal_match (h :: r1) = None.
Proof.
  intros H. unfold decimal_match. now destruct (Z.eqb_spec h 35).
Qed.

Lemma hex_match_cases (r : pystr) :
  match hex_match r with
  | None => True
  | Some (k, repl) =>
      Forall (fun c => c <> 38) (firstn k r) /\ exists t, repl = Ok t
  end.
Proof.
  unfold hex_match. destruct r as [|h [|x r2]]; try exact I.
  destruct ((h =? 35) && ((x =? 120) || (x =? 88))) eqn:E; [|exact I].
  destruct (span is_hex r2) as [|n] eqn:En; [exact I|].
  split; [|eauto].
  change (2 + S n + semi (skipn (S n) r2))%nat
    with (S (S (S n + semi (skipn (S n) r2)))).
  rewrite !firstn_cons.
  apply andb_true_iff in E. destruct E as [Eh Ex].
  constructor; [lia|]. constructor; [lia|].
  apply (reference_no_amp is_hex); [apply is_hex_no_amp | lia].
Qed.

Lemma named_match_cases (r : pystr) :
  match named_match r with
  | None => True
  | Some (k, repl) =>
      Forall (fun c => c <> 38) (firstn k r) /\ exists t, repl = Ok t
  end.
Proof.
  unfold named_match.
  destruct (Nat.min 32 (span name_char r)) as [|n] eqn:En; [exact I|].
  cbv zeta. split; [|eauto].
  apply (reference_no_amp name_char); [apply name_char_no_amp | lia].
Qed.

Lemma other_match_cases (rest : pystr) :
  match first_match [hex_match rest; named_match rest] with
  | None => True
  | Some (k, repl) =>
      Forall (fun c => c <> 38) (firstn k rest) /\ exists t, repl = Ok t
  end.
Proof.
  cbn [first_match]. pose proof (hex_match_cases rest) as Hh.
  pose proof (named_match_cases rest) as Hn.
  destruct (hex_match rest) as [[k repl]|]; [exact Hh|].
  destruct (named_match rest) as [[k repl]|]; [exact Hn | exact I].
Qed.

(** What the pattern does at a place of the string: at a reference that
    is too long the replacement raises; anywhere else there is no match,
    or a match without [&] after its first character and a replacement
    that returns. *)
Lemma charref_match_cases (c : Z) (rest : pystr) :
  if long_at (c :: rest)
  then exists k, charref_match (c :: rest) = Some (S k, Raise ValueError)
  else charref_match (c :: rest) = None
       \/ exists k t,
            charref_match (c :: rest) = Some (S k, Ok t)
            /\ Forall (fun x => x <> 38) (firstn k rest).
Proof.
  unfold charref_match.
  destruct (Z.eqb_spec c 38) as [->|Hc].
  2:{ replace (long_at (c :: rest)) with false; [now left|].
      unfold long_at. destruct rest; [reflexivity|].
      destruct (Z.eqb_spec c 38); [contradiction | reflexivity]. }
  change (first_match [decimal_match rest; hex_match rest; named_match rest])
    with (match decimal_match rest with
          | Some a => Some a
          | None => first_match [hex_match rest; named_match rest]
          end).
  assert (Hother :
            match first_match [hex_match rest; named_match rest] with
            | Some (n, repl) => Some (S n, repl)
            | None => None
            end = None
            \/ exists k t,
                 match first_match [hex_match rest; named_match rest] with
                 | Some (n, repl) => Some (S n, repl)
                 | None => None
                 end = Some (S k, Ok t)
                 /\ Forall (fun x => x <> 38) (firstn k rest)).
  { pose proof (other_match_cases rest) as Ho.
    destruct (first_match [hex_match rest; named_match rest])
      as [[k repl]|]; [|now left].
    destruct Ho as [HF [t ->]]. right. eauto. }
  destruct rest as [|h r1]; [exact Hother|].
  destruct (Z.eqb_spec h 35) as [->|Hh].
  - pose proof (decimal_match_cases r1) as Hd.
    unfold long_at. rewrite !Z.eqb_refl. cbn [andb].
    destruct (decimal_match (35 :: r1)) as [[k repl]|].
    + destruct Hd as [HF Hrepl].
      destruct (too_many_digits (Z.of_nat (span is_digit r1))).
      * subst repl. eauto.
      * destruct Hrepl as [t ->]. right. eauto.
    + rewrite Hd. exact Hother.
  - rewrite (decimal_match_head h r1 Hh).
    replace (long_at (38 :: h :: r1)) with false; [exact Hother|].
    unfold long_at. destruct (Z.eqb_spec h 35); [contradiction|].
    now rewrite andb_false_r.
Qed.

(** Without a reference that is too long, the substitution returns. *)
Lemma charref_scan_returns (s : pystr) :
  long_reference s = false ->
  forall skip, exists t, re_sub_fn_from charref_match skip s = Ok t.
Proof.
  induction s as [|c rest IH]; intros H skip; [cbn; eauto|].
  cbn [long_reference] in H. apply orb_false_iff in H. destruct H as [Hat Hl].
  cbn [re_sub_fn_from]. destruct skip as [|k]; [|apply IH, Hl].
  pose proof (charref_match_cases c rest) as Hm. rewrite Hat in Hm.
  destruct Hm as [-> | (k & t & -> & _)].
  - destruct (IH Hl O) as [t ->]. cbn [bind]. eauto.
  - destruct (IH Hl k) as [t' ->]. cbn [bind]. eauto.
Qed.

(** With one, it raises [ValueError]: the scan reaches every [&]. *)
Lemma charref_scan_raises (s : pystr) :
  long_reference s = true ->
  forall skip, Forall (fun c => c <> 38) (firstn skip s) ->
    re_sub_fn_from charref_match skip s = Raise ValueError.
Proof.
  induction s as [|c rest IH]; intros H skip Hskip; [discriminate|].
  cbn [long_reference] in H. cbn [re_sub_fn_from].
  destruct skip as [|k].
  - pose proof (charref_match_cases c rest) as Hm.
    destruct (long_at (c :: rest)).
    + destruct Hm as [k ->]. reflexivity.
    + cbn [orb] in H. destruct Hm as [-> | (k & t & -> & Hk)].
      * rewrite (IH H O) by constructor. reflexivity.
      * cbn [bind]. rewrite (IH H k Hk). reflexivity.
  - cbn [firstn] in Hskip. inversion Hskip as [|x l Hx Hl]; subst.
    assert (Hat : long_at (c :: rest) = false).
    { unfold long_at. destruct rest; [reflexivity|].
      destruct (Z.eqb_spec c 38); [contradiction | reflexivity]. }
    rewrite Hat in H. apply (IH H k Hl).
Qed.

Lemma long_reference_amp (s : pystr) :
  contains s 38 = false -> long_reference s = false.
Proof.
  unfold contains. induction s as [|c s IH]; [reflexivity|].
  cbn [existsb long_reference]. intros H. apply orb_false_iff in H.
  destruct H as [Hc Hs]. rewrite (IH Hs), orb_false_r.
  unfold long_at. destruct s; [reflexivity|].
  rewrite Z.eqb_sym, Hc. reflexivity.
Qed.

Lemma unescape_capped (s : pystr) :
  long_reference s = false -> exists t, unescape s = Ok t.
Proof.
  intros H. unfold unescape, re_sub_fn.
  destruct (contains s 38); cbn [negb]; [|eauto].
  apply charref_scan_returns, H.
Qed.

Lemma unescape_long (s : pystr) :
  long_reference s = true -> unescape s = Raise ValueError.
Proof.
  intros H. unfold unescape, re_sub_fn.
  destruct (contains s 38) eqn:E; cbn [negb].
  - apply charref_scan_raises; [exact H | constructor].
  - rewrite (long_reference_amp s E) in H. discriminate.
Qed.

End References.

Section CleanText.
Context {rt : Runtime}.

Lemma unescape_no_amp (s : pystr) :
  Forall (fun c => c <> 38) s -> unescape s = Ok s.
Proof. intros H. unfold unescape. now rewrite (no_amp s H). Qed.

Lemma clean_text_unfold (s : pystr) :
  clean_text (VStr s)
  = (x <- unescape (fold_left (fun s char => replace char [32] s)
                      INVISIBLE_TO_SPACE s) ;;
     Ok (filter kept (strip (collapse (strip_tags x))))).
Proof.
  unfold clean_text. destruct (unescape _); cbn [bind]; [|reflexivity].
  now rewrite kept_split.
Qed.

(** The invisible characters are none of [&], [#] and the digits. *)
Lemma to_space_reference (c : Z) :
  (to_space c =? 38) = (c =? 38) /\ (to_space c =? 35) = (c =? 35)
  /\ is_digit (to_space c) = is_digit c.
Proof.
  unfold to_space. destruct (invisible c) eqn:E; [|repeat split].
  unfold invisible, INVISIBLE_TO_SPACE, contains in E. cbn [existsb] in E.
  unfold is_digit.
  repeat match type of E with
         | (?a =? ?b) || _ = true =>
             destruct (Z.eqb_spec a b);
             [subst; repeat split; reflexivity | cbn [orb] in E]
         end.
  discriminate.
Qed.

Lemma span_to_space (s : pystr) :
  span is_digit (map to_space s) = span is_digit s.
Proof.
  induction s as [|c s IH]; [reflexivity|]. cbn [map span].
  destruct (to_space_reference c) as (_ & _ & ->). now rewrite IH.
Qed.

Lemma long_reference_to_space (s : pystr) :
  long_reference (map to_space s) = long_reference s.
Proof.
  induction s as [|c s IH]; [reflexivity|].
  cbn [map long_reference]. rewrite IH. f_equal.
  unfold long_at. destruct s as [|h r1]; [reflexivity|]. cbn [map].
  destruct (to_space_reference c) as (-> & _ & _).
  destruct (to_space_reference h) as (_ & -> & _).
  now rewrite span_to_space.
Qed.

(** [clean_text] returns on every value but a string with a reference
    that is too long, on which it raises [ValueError]. *)
Lemma clean_text_capped (v : pyval) :
  capped v = true -> exists t, clean_text v = Ok t.
Proof.
  destruct v as [| | | |s| |]; try (intros _; now eexists).
  cbn [capped]. intros H. apply negb_true_iff in H.
  rewrite clean_text_unfold, invisible_to_space.
  rewrite <- long_reference_to_space in H.
  destruct (unescape_capped _ H) as [x ->]. cbn [bind]. eauto.
Qed.

Lemma clean_text_long (v : pyval) :
  capped v = false -> clean_text v = Raise ValueError.
Proof.
  destruct v as [| | | |s| |]; try discriminate.
  cbn [capped]. intros H. apply negb_false_iff in H.
  rewrite clean_text_unfold, invisible_to_space.
  rewrite <- long_reference_to_space in H.
  now rewrite (unescape_long _ H).
Qed.

(** On a string in its final form, every step of [clean_text] is the
    identity. *)
Lemma clean_text_fixed (t : pystr) :
  Forall settled t -> tagfree t = true ->
  spaced false t = true -> head_not_space t = true ->
  clean_text (VStr t) = Ok t.
Proof.
  intros Hs Htag Hsp Hhd. rewrite clean_text_unfold, invisible_to_space.
  assert (map to_space t = t) as ->.
  { rewrite <- (map_id t) at 2. apply map_ext_in. intros c Hc.
    apply to_space_fixed. rewrite Forall_forall in Hs. apply (Hs c Hc). }
  rewrite unescape_no_amp
    by (eapply Forall_impl; [|exact Hs]; intros c Hc; apply Hc).
  cbn [bind]. f_equal.
  rewrite (tagfree_fixed t Htag), (spaced_strip_collapse t Hsp Hhd).
  apply filter_all. pose proof (spaced_space_is_32 _ _ Hsp) as H32.
  rewrite Forall_forall in *. intros c Hc.
  apply settled_kept; [apply (Hs c Hc) | apply (H32 c Hc)].
Qed.

(** What [clean_text] returns on a string of [plain] characters. *)
Lemma clean_text_plain (s : pystr) :
  Forall plain s ->
  let t := strip (collapse (strip_tags (map to_space s))) in
  clean_text (VStr s) = Ok t
  /\ Forall settled t /\ tagfree t = true
  /\ spaced false t = true /\ head_not_space t = true.
Proof.
  intros Hs t.
  assert (H1 : Forall settled (map to_space s)).
  { apply Forall_map. eapply Forall_impl; [|exact Hs].
    intros c. apply to_space_settled. }
  assert (Ht : Forall settled t).
  { unfold t. auto using settled_32, strip_tags_Forall with chars. }
  destruct (strip_collapse_spaced (strip_tags (map to_space s)))
    as [Hsp Hhd].
  split; [|repeat split; try assumption].
  - rewrite clean_text_unfold, invisible_to_space.
    rewrite unescape_no_amp
      by (eapply Forall_impl; [|exact H1]; intros c Hc; apply Hc).
    cbn [bind]. f_equal.
    apply filter_all. pose proof (spaced_space_is_32 _ _ Hsp) as H32.
    fold t in H32. rewrite Forall_forall in *. intros c Hc.
    apply settled_kept; [apply (Ht c Hc) | apply (H32 c Hc)].
  - apply strip_collapse_tagfree, strip_tags_tagfree.
Qed.

(** C3, amended: [clean_text(clean_text(s)) == clean_text(s)] for every
    string [s] without [&] in which every character other than
    whitespace is neither an ASCII control character nor DEL: on such a
    string [clean_text] returns, and on what it returns it returns the
    same again. *)
Theorem clean_text_idempotent_plain (s : pystr) :
  Forall plain s ->
  exists t, clean_text (VStr s) = Ok t /\ clean_text (VStr t) = Ok t.
Proof.
  intros Hs.
  destruct (clean_text_plain s Hs) as (E & Hset & Htag & Hsp & Hhd).
  eexists. split; [exact E|]. now apply clean_text_fixed.
Qed.

End CleanText.

(** C3 as stated fails: on ["a \x01 b"] the whitespace is collapsed
    before the control character is removed, which leaves two spaces
    that a second pass collapses.  The input has no entity, so the
    entity table plays no part. *)
Lemma clean_text_not_idempotent :
  let s := [97; 32; 1; 32; 98] in
  exists once twice,
    @clean_text example_runtime (VStr s) = Ok once
    /\ @clean_text example_runtime (VStr once) = Ok twice
    /\ twice <> once.
Proof.
  exists [97; 32; 32; 98], [97; 32; 98].
  repeat split; try reflexivity. discriminate.
Qed.

(** The same failure for every runtime. *)
Lemma clean_text_control_between_spaces (rt : Runtime) :
  clean_text (VStr [97; 32; 1; 32; 98]) = Ok [97; 32; 32; 98]
  /\ clean_text (VStr [97; 32; 32; 98]) = Ok [97; 32; 98].
Proof. split; reflexivity. Qed.

(** A second reason, through the entity table: one pass decodes one
    level of [&amp;]. *)
Example clean_text_decodes_one_level :
  @clean_text example_runtime (VStr (py "&amp;lt;")) = Ok (py "&lt;")
  /\ @clean_text example_runtime (VStr (py "&lt;")) = Ok (py "<").
Proof. split; vm_compute; reflexivity. Qed.

(* ===================================================================== *)
(** ** Articles and batches *)
(* ===================================================================== *)

Section CleanFacts.
Context {rt : Runtime}.

Lemma cleaned_url_capped (v : pyval) :
  capped v = true -> exists t, cleaned_url v = Ok t.
Proof.
  destruct v as [| | | |s| |]; try (intros _; now eexists).
  apply (clean_text_capped (VStr s)).
Qed.

Lemma cleaned_url_long (v : pyval) :
  capped v = false -> cleaned_url v = Raise ValueError.
Proof.
  destruct v as [| | | |s| |]; try discriminate.
  apply (clean_text_long (VStr s)).
Qed.

(** [published]: what [parse_date_to_iso] returns on a string, the empty
    string on anything else. *)
Lemma published_returns (v : pyval) :
  exists published,
    match v with VStr _ => parse_date_to_iso v | _ => Ok [] end
    = Ok published
    /\ (is_str v = true -> parse_date_to_iso v = Ok published)
    /\ (is_str v = false -> published = []).
Proof.
  destruct v as [| | | |p| |];
    try (exists []; split; [reflexivity|];
         split; [discriminate | reflexivity]).
  destruct (parse_date_to_iso_returns (VStr p)) as [iso E].
  exists iso. split; [exact E|]. split; [intros _; exact E | discriminate].
Qed.

(** [clean_article] on a mapping, field by field. *)
Lemma clean_article_fields (d : list (pystr * pyval)) :
  clean_article (VDict d)
  = (url <- cleaned_url (lookup_or_none d (py "url")) ;;
     title <- clean_text (lookup_or_none d (py "title")) ;;
     content <- clean_text (lookup_or_none d (py "content")) ;;
     published <-
       match lookup_or_none d (py "published") with
       | VStr _ => parse_date_to_iso (lookup_or_none d (py "published"))
       | _ => Ok []
       end ;;
     Ok (VDict [ (py "url", VStr url);
                 (py "title", VStr title);
                 (py "content", VStr content);
                 (py "published", VStr published) ])).
Proof.
  unfold clean_article, cleaned_url. cbn [is_dict negb].
  rewrite !get_dict. reflexivity.
Qed.

Lemma clean_article_returns (a : pyval) :
  article_capped a = true -> exists a', clean_article a = Ok a'.
Proof.
  destruct a as [| | | | | |d]; try (intros _; now eexists).
  cbn [article_capped]. intros H.
  apply andb_true_iff in H. destruct H as [H Hc].
  apply andb_true_iff in H. destruct H as [Hu Ht].
  rewrite clean_article_fields.
  destruct (cleaned_url_capped _ Hu) as [url ->].
  destruct (clean_text_capped _ Ht) as [title ->].
  destruct (clean_text_capped _ Hc) as [content ->].
  destruct (published_returns (lookup_or_none d (py "published")))
    as (published & -> & _).
  cbn [bind]. eauto.
Qed.

Lemma clean_article_long (a : pyval) :
  article_capped a = false -> clean_article a = Raise ValueError.
Proof.
  destruct a as [| | | | | |d]; try discriminate.
  cbn [article_capped]. intros H. rewrite clean_article_fields.
  destruct (capped (lookup_or_none d (py "url"))) eqn:Hu.
  2:{ now rewrite (cleaned_url_long _ Hu). }
  destruct (cleaned_url_capped _ Hu) as [url ->]. cbn [bind].
  destruct (capped (lookup_or_none d (py "title"))) eqn:Ht.
  2:{ now rewrite (clean_text_long _ Ht). }
  destruct (clean_text_capped _ Ht) as [title ->]. cbn [bind].
  cbn [andb] in H. now rewrite (clean_text_long _ H).
Qed.

(** A cleaned mapping is a mapping. *)
Lemma clean_article_dict (d : list (pystr * pyval)) (a' : pyval) :
  clean_article (VDict d) = Ok a' -> is_dict a' = true.
Proof.
  rewrite clean_article_fields.
  destruct (cleaned_url _) as [url|]; [|discriminate].
  destruct (clean_text _) as [title|]; [|discriminate].
  destruct (clean_text _) as [content|]; [|discriminate].
  destruct (published_returns (lookup_or_none d (py "published")))
    as (published & -> & _).
  cbn [bind]. now intros [= <-].
Qed.


Lemma map_result_Forall2 {A B} (f : A -> result B) (l : list A)
  (bs : list B) :
  map_result f l = Ok bs -> Forall2 (fun a b => f a = Ok b) l bs.
Proof.
  revert bs. induction l as [|a l IH]; intros bs; cbn [map_result].
  - intros [= <-]. constructor.
  - destruct (f a) as [b|] eqn:Ea; [|discriminate]. cbn [bind].
    destruct (map_result f l) as [bs'|]; [|discriminate]. cbn [bind].
    intros [= <-]. constructor; [exact Ea | now apply IH].
Qed.

Lemma map_result_returns {A B} (f : A -> result B) (ok : A -> bool)
  (l : list A) :
  (forall a, ok a = true -> exists b, f a = Ok b) ->
  forallb ok l = true -> exists bs, map_result f l = Ok bs.
Proof.
  intros Hf. induction l as [|a l IH]; cbn [forallb map_result];
    [eauto|].
  intros H. apply andb_true_iff in H. destruct H as [Ha Hl].
  destruct (Hf a Ha) as [b ->]. destruct (IH Hl) as [bs ->].
  cbn [bind]. eauto.
Qed.

Lemma map_result_raises {A B} (f : A -> result B) (ok : A -> bool)
  (e : exn) (l : list A) :
  (forall a, ok a = true -> exists b, f a = Ok b) ->
  (forall a, ok a = false -> f a = Raise e) ->
  forallb ok l = false -> map_result f l = Raise e.
Proof.
  intros Hok Hno. induction l as [|a l IH]; cbn [forallb map_result];
    [discriminate|].
  destruct (ok a) eqn:Ea; cbn [andb]; intros H.
  - destruct (Hok a Ea) as [b ->]. cbn [bind]. now rewrite (IH H).
  - now rewrite (Hno a Ea).
Qed.


(** [clean] on a mapping: the articles, then ['generated_at']. *)
Lemma clean_fields (d : list (pystr * pyval)) :
  clean (VDict d)
  = (cleaned <- map_result clean_article (articles_of d) ;;
     g <- clean_text (VStr (stamp_text d)) ;;
     Ok (VDict [ (py "generated_at",
                  VStr (if negb (is_empty g) then g else stamp_text d));
                 (py "articles", VList cleaned) ])).
Proof.
  unfold clean. cbn [is_dict negb]. rewrite !get_dict. cbn [bind].
  assert (match lookup_or_none d (py "articles") with
          | VList l => l
          | _ => []
          end = articles_of d) as ->.
  { unfold lookup_or_none, articles_of.
    destruct (dict_lookup d (py "articles")) as [[]|]; reflexivity. }
  unfold stamp_text.
  destruct (lookup_or_none d (py "generated_at")); reflexivity.
Qed.

(** On a batch without a reference that is too long, [clean] returns. *)
Lemma clean_returns (d : list (pystr * pyval)) :
  batch_capped d = true ->
  exists cleaned g,
    map_result clean_article (articles_of d) = Ok cleaned
    /\ clean_text (VStr (stamp_text d)) = Ok g
    /\ clean (VDict d)
       = Ok (VDict [ (py "generated_at",
                      VStr (if negb (is_empty g) then g else stamp_text d));
                     (py "articles", VList cleaned) ]).
Proof.
  unfold batch_capped. intros H.
  apply andb_true_iff in H. destruct H as [Ha Hg].
  destruct (map_result_returns clean_article article_capped _
              clean_article_returns Ha) as [cleaned E].
  destruct (clean_text_capped (VStr (stamp_text d)) Hg) as [g Eg].
  exists cleaned, g. split; [exact E|]. split; [exact Eg|].
  rewrite clean_fields, E, Eg. reflexivity.
Qed.


End CleanFacts.

(* ===================================================================== *)
(** ** The month-name strategy and its offset *)
(* ===================================================================== *)

Section MonthName.
Context {rt : Runtime}.

(** C2, what the code does: when the ISO parser rejects the string and
    its first 20 characters parse as [%Y-%b-%dT%H:%M:%S], a string of
    fewer than 26 characters gets no offset at all.  A bare [+HHMM] or
    [-HHMM] offset makes 25 characters, so it is dropped, where the claim
    has it rebuilt as [HH:MM]: the guard [len(s) >= 26] is the length of
    the colon form. *)
Theorem month_name_short_suffix_dropped (s : pystr) (dt : datetime) :
  strip s <> [] ->
  datetime_fromisoformat (replace 90 (py "+00:00") (strip s))
  = Raise ValueError ->
  strptime (slice (strip s) 0 20) (py "%Y-%b-%dT%H:%M:%S") = Ok dt ->
  len (strip s) < 26 ->
  parse_date_to_iso (VStr s) = Ok (strftime dt).
Proof.
  intros Hne Hiso Hmon Hlen.
  rewrite (parse_date_to_iso_str s Hne). cbv zeta.
  rewrite Hiso, Hmon. cbn [bind try_except_value_type].
  assert ((len (strip s) >=? 26) = false) as H26
    by (rewrite Z.geb_leb; apply Z.leb_gt; lia).
  destruct (len (strip s) >? 20) eqn:H20; [|reflexivity].
  destruct (index_in_range (strip s) 20) as [c ->].
  - apply Z.gtb_lt in H20. lia.
  - cbn [bind]. rewrite H26, andb_false_r. reflexivity.
Qed.

End MonthName.

(** The bare offset of 25 characters is dropped. *)
Lemma month_name_bare_offset_dropped :
  let s := py "2026-Feb-01T13:28:27-0500" in
  (strip s <> []
   /\ @datetime_fromisoformat example_runtime
        (replace 90 (py "+00:00") (strip s)) = Raise ValueError
   /\ len (strip s) < 26)
  /\ @parse_date_to_iso example_runtime (VStr s)
     = Ok (py "2026-02-01T13:28:27").
Proof.
  cbv zeta. split.
  - split; [discriminate|]. split; [reflexivity|]. reflexivity.
  - apply (@month_name_short_suffix_dropped example_runtime
             (py "2026-Feb-01T13:28:27-0500")
             (mk_datetime 2026 2 1 13 28 27 0 None)).
    + discriminate.
    + reflexivity.
    + reflexivity.
    + reflexivity.
Defined.

(** The colon form is kept, and the branch that rebuilds [HH:MM] from
    [HHMM] runs only when something follows the four digits. *)
Example month_name_colon_offset :
  @parse_date_to_iso example_runtime (VStr (py "2026-Feb-01T13:28:27-05:00"))
  = Ok (py "2026-02-01T13:28:27-05:00").
Proof. vm_compute. reflexivity. Qed.

Example month_name_bare_offset_and_more :
  @parse_date_to_iso example_runtime (VStr (py "2026-Feb-01T13:28:27-0500x"))
  = Ok (py "2026-02-01T13:28:27-05:00").
Proof. vm_compute. reflexivity. Qed.

(* ===================================================================== *)
(** ** The statements on concrete inputs *)
(* ===================================================================== *)

Lemma validate_record_invalid_record (rt : Runtime) (record : pyval) :
  is_dict record = false ->
  validate_record record = Ok (false, [py "invalid_record"]).
Proof. intros H. unfold validate_record. now rewrite H. Qed.

Lemma validate_non_mapping_raises_on_string :
  let d := [ (py "articles", VList [VStr (py "oops")]) ] in
  Exists (fun r => is_dict r = false) (articles_of d)
  /\ @validate example_runtime (VDict d) = Raise AttributeError.
Proof.
  cbv zeta. split.
  - apply Exists_cons_hd. reflexivity.
  - apply (@validate_non_mapping_raises example_runtime).
    apply Exists_cons_hd. reflexivity.
Defined.

Lemma validate_counts_partition_on_three :
  let d := [ (py "articles",
              VList [good_article; raw_article; VDict []]) ] in
  Forall (fun r => is_dict r = true) (articles_of d)
  /\ exists report,
       @validate example_runtime (VDict d) = Ok report
       /\ total_records report = 3
       /\ valid_count report + invalid_count report = total_records report.
Proof.
  cbv zeta. split.
  - repeat constructor.
  - destruct (@validate_counts_partition example_runtime
                [ (py "articles",
                   VList [good_article; raw_article; VDict []]) ])
      as (report & E & Ht & Hsum).
    + repeat constructor.
    + exists report. split; [exact E|]. split; [exact Ht | exact Hsum].
Defined.

Lemma validate_percentages_on_three :
  let d := [ (py "articles",
              VList [good_article; raw_article; VDict []]) ] in
  Forall (fun r => is_dict r = true) (articles_of d)
  /\ exists report,
       @validate example_runtime (VDict d) = Ok report
       /\ title_percent report = VFloat (rounded_percent 2 3)
       /\ date_percent report = VFloat (rounded_percent 2 3).
Proof.
  cbv zeta. split.
  - repeat constructor.
  - destruct (@validate_percentages example_runtime
                [ (py "articles",
                   VList [good_article; raw_article; VDict []]) ])
      as [Hret Hrep].
    destruct Hret as [report E]; [repeat constructor|].
    exists report. split; [exact E|].
    destruct (Hrep report E) as (Ht & Hti & _ & _ & Hda & _ & Hpos).
    destruct Hpos as (H1 & _ & _ & H4).
    + rewrite Ht. reflexivity.
    + rewrite H1, H4, Hti, Hda, Ht. split; reflexivity.
Defined.

Example rounded_percent_two_thirds :
  rounded_percent 2 3 = 0x1.0aae147ae147bp+6%float
  /\ rounded_percent 3 4 = 75%float
  /\ rounded_percent 1 20000 = 0x1.47ae147ae147bp-7%float.
Proof. repeat split; vm_compute; reflexivity. Qed.




(** With 4300 digits the same title is converted: the number is beyond
    the code points, which gives U+FFFD. *)
Example clean_article_at_the_limit :
  @clean_article example_runtime
    (VDict [ (py "title", VStr (nines_reference 4300)) ])
  = Ok (VDict [ (py "url", VStr []);
                (py "title", VStr [65533]);
                (py "content", VStr []);
                (py "published", VStr []) ]).
Proof. vm_compute. reflexivity. Qed.


Example clean_article_on_raw :
  @clean_article example_runtime raw_article
  = Ok (VDict [ (py "url", VStr (py "123"));
                (py "title", VStr (py "Hi there"));
                (py "content", VStr (py "short"));
                (py "published", VStr (py "2026-02-01T13:28:27-05:00")) ]).
Proof. vm_compute. reflexivity. Qed.

Lemma plainb_plain (c : Z) : plainb c = true -> plain c.
Proof.
  unfold plainb, plain. intros H. apply andb_prop in H. destruct H as [H1 H2].
  split.
  - intros ->. discriminate.
  - apply orb_prop in H2. destruct H2 as [H2|H2]; [now left|].
    apply andb_prop in H2. destruct H2 as [H2 H3]. right. split.
    + now apply Z.leb_le.
    + intros ->. discriminate.
Qed.

Lemma forallb_plain (s : pystr) : forallb plainb s = true -> Forall plain s.
Proof.
  intros H. apply Forall_forall. intros c Hc. apply plainb_plain.
  rewrite forallb_forall in H. now apply H.
Qed.

Lemma clean_text_idempotent_on_markup :
  let s := py "  <b>Hi</b>  there " in
  Forall plain s
  /\ exists t,
       @clean_text example_runtime (VStr s) = Ok t
       /\ @clean_text example_runtime (VStr t) = Ok t.
Proof.
  cbv zeta. split.
  - apply forallb_plain. reflexivity.
  - apply (@clean_text_idempotent_plain example_runtime).
    apply forallb_plain. reflexivity.
Defined.

Lemma parse_date_to_iso_on_garbage :
  let v := VStr (py "not a date") in
  @strategies_fail example_runtime (strip (py "not a date"))
  /\ @parse_date_to_iso example_runtime v = Ok [].
Proof.
  cbv zeta.
  assert (H : @strategies_fail example_runtime (strip (py "not a date"))).
  { split; [reflexivity|]. split; [reflexivity|].
    intros candidate [-> | ->]; split; reflexivity. }
  split; [exact H|].
  exact (proj2 (proj2 (proj2
           (@parse_date_to_iso_never_raises example_runtime
              (VStr (py "not a date")))))
           (py "not a date") eq_refl H).
Defined.

(* ===================================================================== *)
(** ** More of the two modules *)
(* ===================================================================== *)

(* ===================================================================== *)
(** ** validator.py: [save_valid_only] *)
(* ===================================================================== *)

(** [[r for r in l if keep(r)]] *)
Fixpoint filter_result {A} (keep : A -> result bool) (l : list A)
  : result (list A) :=
  match l with
  | [] => Ok []
  | r :: rest =>
      k <- keep r ;;
      kept <- filter_result keep rest ;;
      Ok (if k then r :: kept else kept)
  end.

Section Filter.
Context {rt : Runtime}.

(** Keep only valid records in data and overwrite the file at path.
    The result is the value handed to [json.dump] for [path] (the
    serialization itself is not modelled) and the line printed. *)
Definition save_valid_only (data : pyval) (path : pystr)
  : result (pyval * pystr) :=
  a <- get_default data (py "articles") (VList []) ;;
  let articles := match a with VList l => l | _ => [] end in
  valid_articles <-
    filter_result (fun r => '(is_valid, _) <- validate_record r ;; Ok is_valid)
      articles ;;
  generated_at <- get_default data (py "generated_at") (VStr []) ;;
  let out := VDict [ (py "generated_at", generated_at);
                     (py "articles", VList valid_articles) ] in
  Ok (out,
      py "Saved " ++ str_of_int (len valid_articles)
      ++ py " valid records to " ++ path).

(** The verdict of [validate_record] on any value. *)
Definition verdict_of (record : pyval) : bool * list pystr :=
  match record with
  | VDict d => verdict d
  | _ => (false, [py "invalid_record"])
  end.

(** [code in errors] for the verdict of a record. *)
Definition has_reason (code : pystr) (record : pyval) : bool :=
  existsb (pystr_eqb code) (snd (verdict_of record)).

(** One turn of the loop of [validate] on a mapping, any other value
    leaving the counters alone. *)
Definition step_value (st : tally) (record : pyval) : tally :=
  match record with
  | VDict d => step_on st d
  | _ => st
  end.

End Filter.

(** The five reason codes of a mapping, in the order of the rules. *)
Definition reason_codes : list pystr :=
  [ py "missing_title"; py "missing_content"; py "missing_url";
    py "invalid_url"; py "content_too_short" ].

(** [l] is [rest] with some elements left out, the order kept. *)
Fixpoint subsequence (l rest : list pystr) : bool :=
  match l, rest with
  | [], _ => true
  | _ :: _, [] => false
  | x :: l', y :: rest' =>
      if pystr_eqb x y then subsequence l' rest' else subsequence l rest'
  end.

(** [counter[k]] of a [Counter]: [0] for a key it does not hold. *)
Fixpoint counter_get (counter : list (pystr * Z)) (k : pystr) : Z :=
  match counter with
  | [] => 0
  | (k', n) :: rest => if pystr_eqb k' k then n else counter_get rest k
  end.

(** A counter whose keys are distinct, each with a count of at least
    one and among [codes]. *)
Definition histogram (codes : list pystr) (counter : list (pystr * Z))
  : Prop :=
  NoDup (map fst counter)
  /\ Forall (fun kv => 1 <= snd kv /\ In (fst kv) codes) counter.

(** The value of ['generated_at'] in the written data. *)
Definition stamp_of (d : list (pystr * pyval)) : pyval :=
  match dict_lookup d (py "generated_at") with
  | Some v => v
  | None => VStr []
  end.

(** The written data and the printed line, from what is kept. *)
Definition saved (g : pyval) (kept : list pyval) (path : pystr)
  : pyval * pystr :=
  (VDict [ (py "generated_at", g); (py "articles", VList kept) ],
   py "Saved " ++ str_of_int (len kept) ++ py " valid records to " ++ path).

(* ===================================================================== *)
(** ** The rules of [validate_record] *)
(* ===================================================================== *)

Lemma pystr_eqb_eq (a b : pystr) : pystr_eqb a b = true <-> a = b.
Proof.
  unfold pystr_eqb. destruct (list_eq_dec Z.eq_dec a b); split; congruence.
Qed.

Lemma pystr_eqb_refl (a : pystr) : pystr_eqb a a = true.
Proof. now apply pystr_eqb_eq. Qed.

Lemma pystr_eqb_neq (a b : pystr) : pystr_eqb a b = false <-> a <> b.
Proof.
  unfold pystr_eqb. destruct (list_eq_dec Z.eq_dec a b); split; congruence.
Qed.

Lemma is_empty_nil (s : pystr) : is_empty s = true <-> s = [].
Proof. destruct s; split; intros H; try reflexivity; discriminate. Qed.

Section Rules.
Context {rt : Runtime}.

Lemma validate_record_any (record : pyval) :
  validate_record record = Ok (verdict_of record).
Proof.
  destruct record; try reflexivity.
  unfold validate_record. cbn [is_dict negb]. rewrite !get_dict. reflexivity.
Qed.

(** Each reason code is there exactly when its rule fires. *)
Lemma reasons_rules (title content url : pystr) :
  let errors := reasons title content url in
  (In (py "missing_title") errors <-> title = [])
  /\ (In (py "missing_content") errors <-> content = [])
  /\ (In (py "missing_url") errors <-> url = [])
  /\ (In (py "invalid_url") errors <->
      url <> []
      /\ startswith url (py "http://") || startswith url (py "https://")
         = false)
  /\ (In (py "content_too_short") errors <->
      content <> [] /\ len content < 50).
Proof.
  cbv zeta. unfold reasons.
  rewrite <- !is_empty_nil, <- Z.ltb_lt.
  destruct (is_empty title), (is_empty content), (is_empty url),
    (len content <? 50),
    (startswith url (py "http://") || startswith url (py "https://"));
    vm_compute; intuition (discriminate || auto).
Qed.

End Rules.

Lemma subsequence_In (l rest : list pystr) (x : pystr) :
  subsequence l rest = true -> In x l -> In x rest.
Proof.
  revert l. induction rest as [|y rest IH]; intros [|z l] H Hx;
    try discriminate; try (now destruct Hx).
  cbn [subsequence] in H. destruct (pystr_eqb z y) eqn:E.
  - apply pystr_eqb_eq in E. subst z. destruct Hx as [<-|Hx]; [now left|].
    right. now apply (IH l).
  - right. now apply (IH (z :: l)).
Qed.

Lemma subsequence_NoDup (l rest : list pystr) :
  subsequence l rest = true -> NoDup rest -> NoDup l.
Proof.
  revert l. induction rest as [|y rest IH]; intros [|z l] H Hnd;
    try discriminate; try constructor.
  - inversion Hnd as [|? ? Hy Hrest]; subst. cbn [subsequence] in H.
    destruct (pystr_eqb z y) eqn:E.
    + apply pystr_eqb_eq in E. subst z. intros Hin.
      apply Hy. now apply (subsequence_In l rest).
    + assert (Hl : NoDup (z :: l)) by now apply IH.
      now inversion Hl.
  - inversion Hnd as [|? ? Hy Hrest]; subst. cbn [subsequence] in H.
    destruct (pystr_eqb z y) eqn:E.
    + now apply IH.
    + assert (Hl : NoDup (z :: l)) by now apply IH.
      now inversion Hl.
Qed.

Lemma reason_codes_NoDup : NoDup reason_codes.
Proof.
  unfold reason_codes.
  repeat (constructor; [vm_compute; intuition discriminate|]). constructor.
Qed.

Lemma reasons_subsequence (title content url : pystr) :
  subsequence (reasons title content url) reason_codes = true.
Proof.
  unfold reasons.
  destruct (is_empty title), (is_empty content), (is_empty url),
    (len content <? 50),
    (startswith url (py "http://") || startswith url (py "https://"));
    reflexivity.
Qed.

Lemma reasons_nil (title content url : pystr) :
  reasons title content url = [] <->
  title <> [] /\ content <> [] /\ url <> []
  /\ startswith url (py "http://") || startswith url (py "https://") = true
  /\ 50 <= len content.
Proof.
  unfold reasons.
  rewrite <- !is_empty_nil.
  assert (50 <= len content <-> (len content <? 50) = false) as ->
    by (symmetry; apply Z.ltb_ge).
  destruct (is_empty title), (is_empty content), (is_empty url),
    (len content <? 50),
    (startswith url (py "http://") || startswith url (py "https://"));
    vm_compute; intuition (discriminate || auto).
Qed.

Lemma len_zero {A} (l : list A) : (len l =? 0) = true <-> l = [].
Proof.
  unfold len. destruct l; cbn; split; intros H; try reflexivity;
    discriminate.
Qed.

Section RuleTheorems.
Context {rt : Runtime}.

(** X1: on a mapping, each reason code is in the verdict exactly when
    its rule fires on the stripped fields. *)
Theorem validate_record_rules (d : list (pystr * pyval)) :
  let title := _strip (lookup_or_none d (py "title")) in
  let content := _strip (lookup_or_none d (py "content")) in
  let url := _strip (lookup_or_none d (py "url")) in
  exists is_valid errors,
    validate_record (VDict d) = Ok (is_valid, errors)
    /\ (In (py "missing_title") errors <-> title = [])
    /\ (In (py "missing_content") errors <-> content = [])
    /\ (In (py "missing_url") errors <-> url = [])
    /\ (In (py "invalid_url") errors <->
        url <> []
        /\ startswith url (py "http://") || startswith url (py "https://")
           = false)
    /\ (In (py "content_too_short") errors <->
        content <> [] /\ len content < 50).
Proof.
  cbv zeta. rewrite validate_record_any. cbn [verdict_of]. unfold verdict.
  eexists _, _. split; [reflexivity|]. apply reasons_rules.
Qed.

(** X2: a mapping is valid exactly when its stripped title, content and
    url are not empty, the url starts with [http://] or [https://], and
    the content has at least 50 characters. *)
Theorem validate_record_valid_iff (d : list (pystr * pyval)) :
  let title := _strip (lookup_or_none d (py "title")) in
  let content := _strip (lookup_or_none d (py "content")) in
  let url := _strip (lookup_or_none d (py "url")) in
  exists is_valid errors,
    validate_record (VDict d) = Ok (is_valid, errors)
    /\ (is_valid = true <->
        title <> [] /\ content <> [] /\ url <> []
        /\ startswith url (py "http://") || startswith url (py "https://")
           = true
        /\ 50 <= len content).
Proof.
  cbv zeta. rewrite validate_record_any. cbn [verdict_of]. unfold verdict.
  eexists _, _. split; [reflexivity|].
  rewrite len_zero. apply reasons_nil.
Qed.

(** X3: on every value [validate_record] returns a verdict and raises
    nothing; the record is valid exactly when no reason is given; a value
    that is not a mapping gets the one reason [invalid_record]; a mapping
    gets reasons among the five codes, each at most once, in the order of
    the rules. *)
Theorem validate_record_verdict (record : pyval) :
  exists is_valid errors,
    validate_record record = Ok (is_valid, errors)
    /\ (is_valid = true <-> errors = [])
    /\ (is_dict record = false ->
        is_valid = false /\ errors = [py "invalid_record"])
    /\ (is_dict record = true ->
        subsequence errors reason_codes = true /\ NoDup errors).
Proof.
  rewrite validate_record_any. destruct record;
    try (exists false, [py "invalid_record"]; split; [reflexivity|];
         split; [split; discriminate|]; split; [auto | discriminate]).
  cbn [verdict_of]. unfold verdict. eexists _, _. split; [reflexivity|].
  split; [apply len_zero|]. split; [discriminate|]. intros _.
  pose proof (reasons_subsequence
                (_strip (lookup_or_none d (py "title")))
                (_strip (lookup_or_none d (py "content")))
                (_strip (lookup_or_none d (py "url")))) as H.
  split; [exact H|]. exact (subsequence_NoDup _ _ H reason_codes_NoDup).
Qed.

End RuleTheorems.

(** *** Values that are not strings *)

Lemma str_of_int_head (z : Z) :
  exists c rest,
    str_of_int z = c :: rest /\ (c = 45 \/ (48 <= c <= 57)).
Proof.
  unfold str_of_int. destruct (Z.to_int z) as [d|d].
  - destruct d; cbn; eexists _, _; (split; [reflexivity|]); lia.
  - cbn. eexists _, _. split; [reflexivity|]. lia.
Qed.

(** Stripping keeps a first character that is not whitespace. *)
Lemma strip_head (c : Z) (rest : pystr) :
  isspace c = false -> exists r, strip (c :: rest) = c :: r.
Proof.
  intros H. unfold strip. cbn [lstrip]. rewrite H.
  now apply rstrip_cons_keep.
Qed.

Lemma isspace_false (c : Z) :
  c = 45 \/ (48 <= c <= 57) -> isspace c = false.
Proof.
  intros [-> | H]; [reflexivity|]. unfold isspace.
  assert (Hle : forall n, 57 < n -> (n <=? c) = false)
    by (intros n Hn; apply Z.leb_gt; lia).
  assert (Heq : forall n, 57 < n -> (c =? n) = false)
    by (intros n Hn; apply Z.eqb_neq; lia).
  assert ((c <=? 13) = false) as -> by (apply Z.leb_gt; lia).
  assert ((c <=? 32) = false) as -> by (apply Z.leb_gt; lia).
  rewrite (Hle 8192), !Heq by lia.
  now rewrite !andb_false_r.
Qed.

Section Scalars.
Context {rt : Runtime}.

Lemma strip_scalar (v : pyval) :
  (exists z, v = VInt z) \/ (exists b, v = VBool b) ->
  exists c r,
    _strip v = c :: r
    /\ startswith (c :: r) (py "http://") = false
    /\ startswith (c :: r) (py "https://") = false.
Proof.
  intros [[z ->]|[b ->]].
  - cbn [_strip str].
    destruct (str_of_int_head z) as (c & rest & -> & Hc).
    destruct (strip_head c rest (isspace_false c Hc)) as [r ->].
    exists c, r. split; [reflexivity|].
    change (py "http://") with (104 :: py "ttp://").
    change (py "https://") with (104 :: py "ttps://").
    cbn [startswith].
    assert ((104 =? c) = false) as -> by (apply Z.eqb_neq; lia).
    split; reflexivity.
  - destruct b; vm_compute; eexists _, _; repeat split.
Qed.

(** X4: a field whose value is an integer or a boolean is stringified,
    so it counts as present, and such a [url] is never [missing_url] but
    always [invalid_url]. *)
Theorem scalar_field_present (d : list (pystr * pyval)) (key : pystr)
  (v : pyval) :
  (exists z, v = VInt z) \/ (exists b, v = VBool b) ->
  lookup_or_none d key = v ->
  _is_present (VDict d) key = Ok true
  /\ (key = py "url" ->
      exists errors,
        validate_record (VDict d) = Ok (false, errors)
        /\ In (py "invalid_url") errors
        /\ ~ In (py "missing_url") errors).
Proof.
  intros Hv Hk. destruct (strip_scalar v Hv) as (c & r & E & H1 & H2).
  split.
  - rewrite is_present_dict. cbn [present]. rewrite Hk, E. reflexivity.
  - intros ->. rewrite validate_record_any. cbn [verdict_of]. unfold verdict.
    rewrite Hk, E.
    pose proof (reasons_rules
                  (_strip (lookup_or_none d (py "title")))
                  (_strip (lookup_or_none d (py "content")))
                  (c :: r)) as (_ & _ & Hmiss & Hinv & _).
    assert (Hin : In (py "invalid_url")
                    (reasons (_strip (lookup_or_none d (py "title")))
                       (_strip (lookup_or_none d (py "content"))) (c :: r))).
    { apply Hinv. split; [discriminate|]. now rewrite H1, H2. }
    eexists. split; [|split; [exact Hin|]].
    + f_equal. f_equal. apply not_true_is_false. rewrite len_zero.
      intros E0. rewrite E0 in Hin. destruct Hin.
    + intros H. apply Hmiss in H. discriminate.
Qed.

End Scalars.

(* ===================================================================== *)
(** ** The counters and the histogram of [validate] *)
(* ===================================================================== *)

(** *** The [Counter] *)

Lemma counter_get_incr (counter : list (pystr * Z)) (e k : pystr) :
  counter_get (counter_incr counter e) k
  = counter_get counter k + (if pystr_eqb e k then 1 else 0).
Proof.
  induction counter as [|[k' n] rest IH]; cbn [counter_incr counter_get].
  - destruct (pystr_eqb e k); lia.
  - destruct (pystr_eqb k' e) eqn:E1; cbn [counter_get].
    + apply pystr_eqb_eq in E1. subst k'.
      destruct (pystr_eqb e k); lia.
    + destruct (pystr_eqb k' k) eqn:E2; [|exact IH].
      apply pystr_eqb_eq in E2. subst k'.
      assert (pystr_eqb e k = false) as ->; [|lia].
      apply pystr_eqb_neq. apply pystr_eqb_neq in E1. congruence.
Qed.

Lemma counter_incr_keys (counter : list (pystr * Z)) (e k : pystr) :
  In k (map fst (counter_incr counter e)) <->
  k = e \/ In k (map fst counter).
Proof.
  induction counter as [|[k' n] rest IH]; cbn [counter_incr map fst In].
  - intuition.
  - destruct (pystr_eqb k' e) eqn:E; cbn [map fst In].
    + apply pystr_eqb_eq in E. subst k'. intuition.
    + rewrite IH. intuition.
Qed.

Lemma counter_incr_NoDup (counter : list (pystr * Z)) (e : pystr) :
  NoDup (map fst counter) -> NoDup (map fst (counter_incr counter e)).
Proof.
  induction counter as [|[k' n] rest IH]; cbn [counter_incr map fst];
    intros H.
  - repeat constructor. intros [].
  - inversion H as [|? ? Hk Hrest]; subst.
    destruct (pystr_eqb k' e) eqn:E; cbn [map fst].
    + now constructor.
    + constructor; [|now apply IH].
      rewrite counter_incr_keys. intros [->|Hin]; [|contradiction].
      rewrite pystr_eqb_refl in E. discriminate.
Qed.

Lemma counter_incr_positive (counter : list (pystr * Z)) (e : pystr) :
  Forall (fun kv => 1 <= snd kv) counter ->
  Forall (fun kv => 1 <= snd kv) (counter_incr counter e).
Proof.
  induction 1 as [|[k' n] rest Hn Hrest IH]; cbn [counter_incr].
  - repeat constructor. cbn. lia.
  - destruct (pystr_eqb k' e); constructor; cbn in *; try assumption; lia.
Qed.

Lemma histogram_incr (codes : list pystr) (counter : list (pystr * Z))
  (e : pystr) :
  In e codes -> histogram codes counter ->
  histogram codes (counter_incr counter e).
Proof.
  intros He [Hnd Hall]. split; [now apply counter_incr_NoDup|].
  clear Hnd. induction Hall as [|[k n] rest [Hn Hk] Hrest IH]; cbn [counter_incr].
  - repeat constructor; cbn; [lia | exact He].
  - destruct (pystr_eqb k e); constructor; cbn in *;
      try assumption; split; try assumption; lia.
Qed.

Lemma histogram_fold (codes : list pystr) (errors : list pystr) :
  incl errors codes ->
  forall counter, histogram codes counter ->
    histogram codes (fold_left counter_incr errors counter).
Proof.
  induction errors as [|e errors IH]; intros Hin counter H; [exact H|].
  cbn [fold_left]. apply IH.
  - intros x Hx. apply Hin. now right.
  - apply histogram_incr; [apply Hin; now left | exact H].
Qed.

Lemma counter_get_fold (errors : list pystr) (k : pystr) :
  NoDup errors ->
  forall counter,
    counter_get (fold_left counter_incr errors counter) k
    = counter_get counter k
      + (if existsb (pystr_eqb k) errors then 1 else 0).
Proof.
  induction 1 as [|e errors He _ IH]; intros counter; cbn [fold_left existsb].
  - lia.
  - rewrite IH, counter_get_incr.
    destruct (pystr_eqb e k) eqn:E.
    + apply pystr_eqb_eq in E. subst e. rewrite pystr_eqb_refl. cbn [orb].
      assert (existsb (pystr_eqb k) errors = false) as ->; [|lia].
      apply not_true_is_false. intros H. apply existsb_exists in H.
      destruct H as (x & Hx & Ex). apply pystr_eqb_eq in Ex. now subst x.
    + assert (pystr_eqb k e = false) as ->.
      { apply pystr_eqb_neq. apply pystr_eqb_neq in E. congruence. }
      cbn [orb]. lia.
Qed.

(** *** The loop of [validate] as a fold *)

Lemma len_filter_cons {A} (f : A -> bool) (x : A) (l : list A) :
  len (filter f (x :: l)) = (if f x then 1 else 0) + len (filter f l).
Proof.
  cbn [filter]. destruct (f x); [rewrite len_cons|]; lia.
Qed.

Lemma len_filter_le {A} (f g : A -> bool) (l : list A) :
  (forall x, f x = true -> g x = true) ->
  len (filter f l) <= len (filter g l).
Proof.
  intros H. induction l as [|x l IH]; [reflexivity|].
  rewrite !len_filter_cons. specialize (H x).
  destruct (f x), (g x); try lia; discriminate (H eq_refl).
Qed.

Section Loop.
Context {rt : Runtime}.

Lemma passes_verdict (record : pyval) :
  passes record = fst (verdict_of record).
Proof. now destruct record. Qed.

Lemma passes_dict (record : pyval) :
  passes record = true -> is_dict record = true.
Proof. destruct record; cbn; intros H; try discriminate; reflexivity. Qed.

Lemma passes_no_reason (record : pyval) :
  passes record = true <-> snd (verdict_of record) = [].
Proof.
  destruct record; cbn [passes verdict_of fst snd];
    try (split; discriminate).
  unfold verdict. cbn [fst snd]. apply len_zero.
Qed.

Lemma verdict_reasons (d : list (pystr * pyval)) :
  NoDup (snd (verdict d)) /\ incl (snd (verdict d)) reason_codes.
Proof.
  unfold verdict. cbn [snd].
  pose proof (reasons_subsequence
                (_strip (lookup_or_none d (py "title")))
                (_strip (lookup_or_none d (py "content")))
                (_strip (lookup_or_none d (py "url")))) as H.
  split.
  - exact (subsequence_NoDup _ _ H reason_codes_NoDup).
  - intros x. now apply subsequence_In.
Qed.

Lemma for_each_fold (l : list pyval) :
  Forall (fun r => is_dict r = true) l ->
  forall st, for_each validate_step l st = Ok (fold_left step_value l st).
Proof.
  induction 1 as [|r l Hr _ IH]; intros st; [reflexivity|].
  destruct (is_dict_inv r Hr) as [d ->].
  cbn [for_each fold_left step_value]. rewrite validate_step_dict.
  cbn [bind]. apply IH.
Qed.

(** The counters at the end of the loop. *)
Lemma fold_counts (l : list pyval) :
  Forall (fun r => is_dict r = true) l ->
  forall st,
    let st' := fold_left step_value l st in
    t_valid st' = t_valid st + len (filter passes l)
    /\ t_invalid st'
       = t_invalid st + len (filter (fun r => negb (passes r)) l)
    /\ (forall code,
          counter_get (t_errors st') code
          = counter_get (t_errors st) code
            + len (filter (has_reason code) l))
    /\ (histogram reason_codes (t_errors st) ->
        histogram reason_codes (t_errors st')).
Proof.
  induction 1 as [|r l Hr _ IH]; intros st; cbv zeta.
  - cbn [fold_left filter]. unfold len. cbn [List.length].
    split; [lia|]. split; [lia|]. split; [intros code; lia | auto].
  - destruct (is_dict_inv r Hr) as [d ->].
    cbn [fold_left step_value].
    destruct (IH (step_on st d)) as (Hv & Hi & Hc & Hh).
    rewrite Hv, Hi, !len_filter_cons.
    destruct (verdict_reasons d) as [Hnd Hincl].
    pose proof (passes_no_reason (VDict d)) as Hp.
    cbn [verdict_of] in Hp.
    unfold step_on. cbn [t_valid t_invalid t_errors]. unfold incr_if.
    split; [destruct (passes (VDict d)); cbn [negb]; lia|].
    split; [destruct (passes (VDict d)); cbn [negb]; lia|].
    split.
    + intros code. rewrite Hc, len_filter_cons.
      unfold step_on. cbn [t_errors].
      change (has_reason code (VDict d))
        with (existsb (pystr_eqb code) (snd (verdict d))).
      destruct (passes (VDict d)) eqn:E.
      * rewrite (proj1 Hp eq_refl). cbn [existsb]. lia.
      * rewrite (counter_get_fold _ code Hnd). lia.
    + intros H0. apply Hh. unfold step_on. cbn [t_errors].
      destruct (passes (VDict d)); [exact H0|].
      now apply histogram_fold.
Qed.

Lemma validate_fold (d : list (pystr * pyval)) :
  Forall (fun r => is_dict r = true) (articles_of d) ->
  let st := fold_left step_value (articles_of d) (mk_tally 0 0 0 0 0 0 []) in
  exists p1 p2 p3 p4,
    validate (VDict d)
    = Ok (mk_report (len (articles_of d)) (t_valid st) (t_invalid st)
            (t_title st) (t_content st) (t_url st) (t_date st)
            p1 p2 p3 p4 (t_errors st)).
Proof.
  intros H st. rewrite validate_articles, (for_each_fold _ H).
  cbn [bind]. cbv zeta. fold st.
  destruct (percent_ok (t_title st) (len (articles_of d))) as [p1 ->].
  destruct (percent_ok (t_content st) (len (articles_of d))) as [p2 ->].
  destruct (percent_ok (t_url st) (len (articles_of d))) as [p3 ->].
  destruct (percent_ok (t_date st) (len (articles_of d))) as [p4 ->].
  cbn [bind]. eauto.
Qed.

Lemma histogram_empty (codes : list pystr) : histogram codes [].
Proof. split; constructor. Qed.

(** X5: on a batch of mappings, [error_counts] is the histogram of the
    reasons: the count of a code is the number of records whose verdict
    holds it, the keys are distinct and among the five codes, and no key
    has a count below one. *)
Theorem validate_error_counts (d : list (pystr * pyval)) :
  Forall (fun r => is_dict r = true) (articles_of d) ->
  exists report,
    validate (VDict d) = Ok report
    /\ (forall code,
          counter_get (error_counts report) code
          = len (filter (has_reason code) (articles_of d)))
    /\ NoDup (map fst (error_counts report))
    /\ Forall (fun kv => 1 <= snd kv /\ In (fst kv) reason_codes)
         (error_counts report).
Proof.
  intros H. destruct (validate_fold d H) as (p1 & p2 & p3 & p4 & E).
  destruct (fold_counts _ H (mk_tally 0 0 0 0 0 0 []))
    as (_ & _ & Hc & Hh).
  eexists. split; [exact E|]. cbn [error_counts].
  split; [intros code; rewrite Hc; cbn; lia|].
  apply Hh, histogram_empty.
Qed.

Lemma passes_present (record : pyval) :
  passes record = true ->
  present (py "title") record = true
  /\ present (py "content") record = true
  /\ present (py "url") record = true.
Proof.
  destruct record; cbn [passes present]; try discriminate.
  unfold verdict. cbn [fst]. rewrite len_zero, reasons_nil.
  intros (Ht & Hc & Hu & _).
  repeat split; apply negb_true_iff, not_true_is_false;
    rewrite is_empty_nil; assumption.
Qed.

(** X6: on a batch of mappings, [valid_count] is the number of records
    that pass and [invalid_count] the number that do not; a record that
    passes has its title, content and url present, so [valid_count] is
    at most each of these three present counts. *)
Theorem validate_valid_count (d : list (pystr * pyval)) :
  Forall (fun r => is_dict r = true) (articles_of d) ->
  exists report,
    validate (VDict d) = Ok report
    /\ valid_count report = len (filter passes (articles_of d))
    /\ invalid_count report
       = len (filter (fun r => negb (passes r)) (articles_of d))
    /\ valid_count report <= title_present_count report
    /\ valid_count report <= content_present_count report
    /\ valid_count report <= url_present_count report.
Proof.
  intros H. destruct (validate_fold d H) as (p1 & p2 & p3 & p4 & E).
  destruct (fold_counts _ H (mk_tally 0 0 0 0 0 0 [])) as (Hv & Hi & _).
  destruct (for_each_dicts _ H (mk_tally 0 0 0 0 0 0 []))
    as (st' & E' & _ & Ht & Hc & Hu & _).
  rewrite (for_each_fold _ H) in E'. injection E' as <-.
  eexists. split; [exact E|].
  cbn [valid_count invalid_count title_present_count
         content_present_count url_present_count].
  rewrite Hv, Hi, Ht, Hc, Hu. cbn [t_valid t_invalid t_title t_content t_url].
  unfold present_count.
  repeat split; try lia;
    (etransitivity; [|apply (len_filter_le passes)];
     [lia | intros x Hx; now apply passes_present in Hx]).
Qed.

(** X7: a batch without articles (the key is missing, its value is not
    a list, or the list is empty) gives the report of zeros: every count
    [0], every percentage the integer [0], no failure. *)
Theorem validate_no_articles (d : list (pystr * pyval)) :
  articles_of d = [] ->
  validate (VDict d)
  = Ok (mk_report 0 0 0 0 0 0 0 (VInt 0) (VInt 0) (VInt 0) (VInt 0) []).
Proof.
  intros H. rewrite validate_articles, H. reflexivity.
Qed.

End Loop.

(* ===================================================================== *)
(** ** The filter *)
(* ===================================================================== *)

(** *** [save_valid_only] *)

Lemma filter_idempotent {A} (f : A -> bool) (l : list A) :
  filter f (filter f l) = filter f l.
Proof.
  induction l as [|x l IH]; [reflexivity|]. cbn [filter].
  destruct (f x) eqn:E; [|exact IH]. cbn [filter]. now rewrite E, IH.
Qed.

Lemma filter_Forall {A} (f : A -> bool) (l : list A) :
  Forall (fun x => f x = true) (filter f l).
Proof.
  apply Forall_forall. intros x Hx. now apply filter_In in Hx.
Qed.

Section FilterFacts.
Context {rt : Runtime}.

Lemma filter_result_valid (l : list pyval) :
  filter_result
    (fun r => '(is_valid, _) <- validate_record r ;; Ok is_valid) l
  = Ok (filter passes l).
Proof.
  induction l as [|r l IH]; [reflexivity|].
  cbn [filter_result filter]. rewrite validate_record_any, IH.
  rewrite passes_verdict. destruct (verdict_of r) as [v e]. reflexivity.
Qed.

Lemma save_valid_only_dict (d : list (pystr * pyval)) (path : pystr) :
  save_valid_only (VDict d) path
  = Ok (saved (stamp_of d) (filter passes (articles_of d)) path).
Proof.
  unfold save_valid_only, get_default, articles_of, stamp_of, saved.
  destruct (dict_lookup d (py "articles")) as [a|]; cbn [bind];
    [destruct a|]; rewrite filter_result_valid; cbn [bind];
    destruct (dict_lookup d (py "generated_at")); reflexivity.
Qed.

Lemma saved_articles (g : pyval) (kept : list pyval) :
  articles_of [ (py "generated_at", g); (py "articles", VList kept) ] = kept.
Proof. reflexivity. Qed.

Lemma saved_stamp (g : pyval) (kept : list pyval) :
  stamp_of [ (py "generated_at", g); (py "articles", VList kept) ] = g.
Proof. reflexivity. Qed.

(** X8: on every mapping [save_valid_only] reaches the file write
    without raising, whatever the elements of ['articles'] are; the data
    it hands over has ['generated_at'] as it is (the empty string when the
    key is missing) and the records that pass [validate_record], in their
    order; each of them is a mapping. *)
Theorem save_valid_only_keeps_valid (d : list (pystr * pyval))
  (path : pystr) :
  exists kept line,
    save_valid_only (VDict d) path
    = Ok (VDict [ (py "generated_at", stamp_of d);
                  (py "articles", VList kept) ], line)
    /\ kept = filter passes (articles_of d)
    /\ Forall (fun r => is_dict r = true
                        /\ validate_record r = Ok (true, [])) kept
    /\ line = py "Saved " ++ str_of_int (len kept)
              ++ py " valid records to " ++ path.
Proof.
  rewrite save_valid_only_dict. unfold saved.
  eexists _, _. split; [reflexivity|]. split; [reflexivity|].
  split; [|reflexivity].
  eapply Forall_impl; [|apply filter_Forall].
  intros r Hr. cbv beta in Hr. split; [now apply passes_dict|].
  rewrite validate_record_any.
  pose proof (proj1 (passes_no_reason r) Hr) as He.
  rewrite passes_verdict in Hr.
  destruct (verdict_of r) as [v e]. cbn in Hr, He. now subst.
Qed.

Lemma no_reason_filter (code : pystr) (l : list pyval) :
  Forall (fun r => passes r = true) l -> filter (has_reason code) l = [].
Proof.
  induction 1 as [|r l Hr _ IH]; [reflexivity|]. cbn [filter].
  unfold has_reason at 1. rewrite (proj1 (passes_no_reason r) Hr).
  exact IH.
Qed.

Lemma none_fails_filter (l : list pyval) :
  Forall (fun r => passes r = true) l ->
  filter (fun r => negb (passes r)) l = [].
Proof.
  induction 1 as [|r l Hr _ IH]; [reflexivity|]. cbn [filter].
  now rewrite Hr.
Qed.

Lemma all_pass_filter (l : list pyval) :
  Forall (fun r => passes r = true) l -> filter passes l = l.
Proof.
  induction 1 as [|r l Hr _ IH]; [reflexivity|]. cbn [filter].
  now rewrite Hr, IH.
Qed.

(** A histogram in which every code counts zero has no entry. *)
Lemma histogram_zero (codes : list pystr) (counter : list (pystr * Z)) :
  histogram codes counter ->
  (forall code, counter_get counter code = 0) -> counter = [].
Proof.
  intros [_ Hpos] Hz. destruct counter as [|[k n] rest]; [reflexivity|].
  specialize (Hz k). cbn [counter_get] in Hz. rewrite pystr_eqb_refl in Hz.
  inversion Hpos as [|? ? [Hn _] _]; subst. cbn in Hn. lia.
Qed.

(** X9: the data [save_valid_only] writes validates without a failure:
    [validate] on it returns a report with every record valid, none
    invalid and an empty histogram. *)
Theorem save_valid_only_then_validate (d : list (pystr * pyval))
  (path : pystr) :
  exists out line report,
    save_valid_only (VDict d) path = Ok (out, line)
    /\ validate out = Ok report
    /\ total_records report = len (filter passes (articles_of d))
    /\ valid_count report = total_records report
    /\ invalid_count report = 0
    /\ error_counts report = [].
Proof.
  rewrite save_valid_only_dict. unfold saved.
  set (kept := filter passes (articles_of d)).
  set (out := [ (py "generated_at", stamp_of d); (py "articles", VList kept) ]).
  assert (Hk : Forall (fun r => passes r = true) kept)
    by (unfold kept; apply filter_Forall).
  assert (Hd : Forall (fun r => is_dict r = true) (articles_of out)).
  { unfold out. rewrite saved_articles.
    eapply Forall_impl; [|exact Hk]. intros r. apply passes_dict. }
  destruct (validate_fold out Hd) as (p1 & p2 & p3 & p4 & E).
  destruct (fold_counts _ Hd (mk_tally 0 0 0 0 0 0 []))
    as (Hv & Hi & Hc & Hh).
  eexists _, _, _. split; [reflexivity|]. split; [exact E|].
  cbn [total_records valid_count invalid_count error_counts].
  unfold out in *. rewrite saved_articles in *.
  rewrite Hv, Hi, (all_pass_filter _ Hk), (none_fails_filter _ Hk).
  cbn [t_valid t_invalid].
  split; [reflexivity|]. split; [lia|]. split; [reflexivity|].
  apply (histogram_zero reason_codes); [apply Hh, histogram_empty|].
  intros code. rewrite Hc, (no_reason_filter code _ Hk). reflexivity.
Qed.

(** X10: on a batch of mappings, the number of records
    [save_valid_only] keeps is the [valid_count] that [validate] reports
    for the same data. *)
Theorem save_valid_only_count (d : list (pystr * pyval)) (path : pystr) :
  Forall (fun r => is_dict r = true) (articles_of d) ->
  exists g kept line report,
    save_valid_only (VDict d) path
    = Ok (VDict [ (py "generated_at", g); (py "articles", VList kept) ],
          line)
    /\ validate (VDict d) = Ok report
    /\ len kept = valid_count report.
Proof.
  intros H. rewrite save_valid_only_dict. unfold saved.
  destruct (validate_fold d H) as (p1 & p2 & p3 & p4 & E).
  destruct (fold_counts _ H (mk_tally 0 0 0 0 0 0 [])) as (Hv & _).
  eexists _, _, _, _. split; [reflexivity|]. split; [exact E|].
  cbn [valid_count]. rewrite Hv. cbn [t_valid]. lia.
Qed.

(** X11: [save_valid_only] is idempotent: on the data it has written it
    writes the same data again. *)
Theorem save_valid_only_idempotent (d : list (pystr * pyval))
  (path : pystr) :
  exists out line,
    save_valid_only (VDict d) path = Ok (out, line)
    /\ save_valid_only out path = Ok (out, line).
Proof.
  rewrite save_valid_only_dict. unfold saved at 1.
  eexists _, _. split; [reflexivity|].
  rewrite save_valid_only_dict, saved_articles, saved_stamp.
  rewrite filter_idempotent. reflexivity.
Qed.

End FilterFacts.

(* ===================================================================== *)
(** ** The cleaner on every input *)
(* ===================================================================== *)

(** *** What [clean_text] returns, on every input *)

Lemma filter_sub_Forall {A} (P : A -> Prop) (f : A -> bool) (l : list A) :
  Forall P l -> Forall P (filter f l).
Proof.
  intros H. apply Forall_forall. intros x Hx. apply filter_In in Hx.
  rewrite Forall_forall in H. now apply H.
Qed.

Lemma kept_tagfree (t : pystr) :
  tagfree t = true -> tagfree (filter kept t) = true.
Proof.
  induction t as [|c t IH]; [reflexivity|]. intros H.
  apply tagfree_cons in H. destruct H as [Hc Ht]. cbn [filter].
  destruct (kept c); [|now apply IH].
  apply tagfree_cons. split; [|now apply IH].
  intros ->. apply (unclosed_kept (filter kept) t); [| |now apply Hc].
  - intros r. exists (filter kept r). reflexivity.
  - apply filter_sub_Forall.
Qed.

Lemma kept_space (c : Z) :
  kept c = true -> (isspace c = true -> c = 32) -> 32 <= c /\ c <> 127.
Proof.
  unfold kept, contains. cbn [existsb]. intros H Hs.
  apply andb_prop in H. destruct H as [H1 H2].
  apply negb_true_iff, Z.eqb_neq in H2. split; [|exact H2].
  apply orb_prop in H1. destruct H1 as [H1|H1]; [now apply Z.leb_le|].
  assert (c = 9 \/ c = 10 \/ c = 13) as Hc.
  { repeat (apply orb_prop in H1; destruct H1 as [H1|H1]);
      try discriminate; apply Z.eqb_eq in H1; lia. }
  assert (isspace c = true) as Hsp
    by (destruct Hc as [->|[->| ->]]; reflexivity).
  specialize (Hs Hsp). lia.
Qed.

Section CleanTextForm.
Context {rt : Runtime}.

(** X12: whatever the input and the entity table, a string that
    [clean_text] returns holds no ASCII control character and no DEL, no
    whitespace other than the space, and no place where the tag pattern
    [<[^>]+>] matches; a value that is not a string gives the empty
    string. *)
Theorem clean_text_form (value : pyval) :
  (forall t, clean_text value = Ok t ->
     Forall (fun c => 32 <= c /\ c <> 127) t
     /\ Forall (fun c => isspace c = true -> c = 32) t
     /\ tagfree t = true)
  /\ (is_str value = false -> clean_text value = Ok []).
Proof.
  split.
  2:{ destruct value; try reflexivity. discriminate. }
  intros t.
  destruct value;
    try (intros [= <-]; repeat split; constructor).
  rewrite clean_text_unfold.
  destruct (unescape _) as [x|]; [|discriminate]. cbn [bind].
  intros [= <-].
  destruct (strip_collapse_spaced (strip_tags x)) as [Hsp _].
  pose proof (spaced_space_is_32 _ _ Hsp) as H32.
  assert (Hs : Forall (fun c => isspace c = true -> c = 32)
                 (filter kept (strip (collapse (strip_tags x)))))
    by now apply filter_sub_Forall.
  split; [|split; [exact Hs|]].
  - apply Forall_forall. intros c Hc. apply kept_space.
    + now apply filter_In in Hc.
    + rewrite Forall_forall in Hs. now apply Hs.
  - apply kept_tagfree, strip_collapse_tagfree, strip_tags_tagfree.
Qed.

(** X17: [clean_text] raises exactly on a string that holds a decimal
    character reference with more digits than [int] converts, and what it
    raises then is [ValueError]; on every other value it returns. *)
Theorem clean_text_outcome (value : pyval) :
  (capped value = true -> exists t, clean_text value = Ok t)
  /\ (capped value = false -> clean_text value = Raise ValueError)
  /\ (int_max_str_digits <= 0 -> capped value = true).
Proof.
  split; [apply clean_text_capped|]. split; [apply clean_text_long|].
  intros Hlimit. destruct value as [| | | |s| |]; try reflexivity.
  cbn [capped]. apply negb_true_iff.
  induction s as [|c s IH]; [reflexivity|].
  cbn [long_reference]. rewrite IH, orb_false_r.
  unfold long_at. destruct s as [|h r1]; [reflexivity|].
  unfold too_many_digits.
  replace (0 <? int_max_str_digits) with false
    by (symmetry; apply Z.ltb_ge; exact Hlimit).
  now rewrite andb_false_r, !andb_false_r.
Qed.

End CleanTextForm.

(** *** [clean] on every value, and [validate] after [clean] *)

Section CleanBatch.
Context {rt : Runtime}.

(** X18: [clean_article] returns a value that is not a mapping as it
    is; on a mapping it raises exactly when the [url], if it is a string,
    the [title] or the [content] holds a decimal character reference with
    more digits than [int] converts, and what it raises then is
    [ValueError]. *)
Theorem clean_article_outcome (article : pyval) :
  (is_dict article = false -> clean_article article = Ok article)
  /\ (article_capped article = true ->
      exists cleaned, clean_article article = Ok cleaned)
  /\ (article_capped article = false ->
      is_dict article = true /\ clean_article article = Raise ValueError).
Proof.
  split; [|split].
  - intros H. unfold clean_article. now rewrite H.
  - apply clean_article_returns.
  - intros H. split; [|now apply clean_article_long].
    destruct article; try discriminate H. reflexivity.
Qed.

(** X13: [clean] returns a value that is not a mapping as it is.  On a
    mapping without a reference that is too long it returns a mapping
    with exactly the keys [generated_at] and [articles], with as many
    articles as the input list has (none when ['articles'] is missing or
    not a list), and its [generated_at] is empty only if the input one
    is missing, null or empty.  On any other mapping it raises
    [ValueError]. *)
Theorem clean_outcome (data : pyval) :
  (is_dict data = false -> clean data = Ok data)
  /\ (forall d, data = VDict d -> batch_capped d = true ->
        exists g cleaned,
          clean data = Ok (VDict [ (py "generated_at", VStr g);
                                   (py "articles", VList cleaned) ])
          /\ List.length cleaned = List.length (articles_of d)
          /\ (g = [] <-> stamp_text d = []))
  /\ (forall d, data = VDict d -> batch_capped d = false ->
        clean data = Raise ValueError).
Proof.
  split; [|split].
  - intros H. unfold clean. now rewrite H.
  - intros d -> Hc.
    destruct (clean_returns d Hc) as (cleaned & g & E & Eg & Eclean).
    apply map_result_Forall2 in E.
    eexists _, cleaned. split; [exact Eclean|].
    split; [symmetry; eapply Forall2_length, E|].
    destruct g as [|c g]; cbn [is_empty negb].
    + tauto.
    + split; [discriminate|]. intros E0. rewrite E0 in Eg.
      discriminate Eg.
  - intros d -> Hc. rewrite clean_fields. unfold batch_capped in Hc.
    destruct (forallb article_capped (articles_of d)) eqn:Ha.
    + destruct (map_result_returns clean_article article_capped _
                  clean_article_returns Ha) as [cleaned ->].
      cbn [bind andb] in *.
      now rewrite (clean_text_long (VStr (stamp_text d)) Hc).
    + now rewrite (map_result_raises clean_article article_capped
                     ValueError _ clean_article_returns
                     clean_article_long Ha).
Qed.

(** X14: cleaning and then validating a batch of mappings without a
    reference that is too long raises nothing: every cleaned article is
    a mapping again, and the report counts every input article once, as
    valid or invalid. *)
Theorem clean_then_validate (d : list (pystr * pyval)) :
  Forall (fun r => is_dict r = true) (articles_of d) ->
  batch_capped d = true ->
  exists out report,
    clean (VDict d) = Ok out
    /\ validate out = Ok report
    /\ total_records report = len (articles_of d)
    /\ valid_count report + invalid_count report = len (articles_of d).
Proof.
  intros H Hcap.
  destruct (clean_returns d Hcap) as (cleaned & g & HF & _ & E).
  apply map_result_Forall2 in HF.
  set (out := [ (py "generated_at",
                 VStr (if negb (is_empty g) then g else stamp_text d));
                (py "articles", VList cleaned) ]) in *.
  assert (Ha : articles_of out = cleaned) by reflexivity.
  assert (Hc : Forall (fun r => is_dict r = true) cleaned).
  { clear E Ha out. induction HF as [|a a' l l' Haa _ IH];
      [constructor|].
    inversion H as [|? ? Hda Hl]; subst. constructor; [|now apply IH].
    destruct (is_dict_inv a Hda) as [da ->].
    apply (clean_article_dict da a' Haa). }
  assert (Hlen : len cleaned = len (articles_of d)).
  { unfold len. f_equal. symmetry. eapply Forall2_length, HF. }
  rewrite <- Ha in Hc.
  destruct (validate_fold out Hc) as (p1 & p2 & p3 & p4 & Ev).
  destruct (for_each_dicts _ Hc (mk_tally 0 0 0 0 0 0 []))
    as (st' & E' & Hsum & _).
  rewrite (for_each_fold _ Hc) in E'. injection E' as <-.
  eexists _, _. split; [exact E|]. split; [exact Ev|].
  cbn [total_records valid_count invalid_count].
  rewrite Hsum, Ha, Hlen. cbn [t_valid t_invalid]. split; lia.
Qed.

End CleanBatch.

(** *** [parse_date_to_iso]: whitespace around, and the offset *)

Lemma rstrip_idempotent (s : pystr) : rstrip (rstrip s) = rstrip s.
Proof.
  induction s as [|c s IH]; [reflexivity|]. cbn [rstrip].
  destruct (rstrip s) as [|x r] eqn:E.
  - destruct (isspace c) eqn:Ec; [reflexivity|]. cbn [rstrip].
    now rewrite Ec.
  - change (rstrip (c :: x :: r))
      with (match rstrip (x :: r) with
            | [] => if isspace c then [] else [c]
            | r' => c :: r'
            end).
    now rewrite IH.
Qed.

Lemma strip_idempotent (s : pystr) : strip (strip s) = strip s.
Proof.
  unfold strip.
  rewrite (spaced_lstrip (rstrip (lstrip s))).
  - apply rstrip_idempotent.
  - apply rstrip_head, lstrip_head.
Qed.

Section DateForms.
Context {rt : Runtime}.

(** X15: whitespace around a date string never changes what
    [parse_date_to_iso] returns. *)
Theorem parse_date_to_iso_strips (s : pystr) :
  parse_date_to_iso (VStr (strip s)) = parse_date_to_iso (VStr s).
Proof.
  destruct (list_eq_dec Z.eq_dec (strip s) []) as [E|E].
  - rewrite !parse_date_to_iso_blank; [reflexivity | |].
    + right. eauto.
    + right. exists (strip s). split; [reflexivity|].
      now rewrite strip_idempotent.
  - rewrite (parse_date_to_iso_str s E).
    rewrite (parse_date_to_iso_str (strip s));
      rewrite strip_idempotent; [reflexivity | exact E].
Qed.

(** X16: on a month-name timestamp of at least 26 characters with a
    sign at position 20, the offset is six characters taken from the
    string without any check: [s[20:26]] when [s[23]] is a colon,
    [s[20:23] + ":" + s[23:25]] otherwise; what follows is ignored. *)
Theorem month_name_offset_copied (s : pystr) (dt : datetime) (sign c23 : Z) :
  datetime_fromisoformat (replace 90 (py "+00:00") (strip s))
  = Raise ValueError ->
  strptime (slice (strip s) 0 20) (py "%Y-%b-%dT%H:%M:%S") = Ok dt ->
  26 <= len (strip s) ->
  nth_error (strip s) 20 = Some sign -> sign = 43 \/ sign = 45 ->
  nth_error (strip s) 23 = Some c23 ->
  parse_date_to_iso (VStr s)
  = Ok (strftime dt
        ++ (if c23 =? 58 then slice (strip s) 20 26
            else slice (strip s) 20 23 ++ py ":" ++ slice (strip s) 23 25)).
Proof.
  intros Hiso Hmon Hlen H20 Hsign H23.
  assert (Hne : strip s <> []).
  { intros E. rewrite E in Hlen. cbn in Hlen. lia. }
  rewrite (parse_date_to_iso_str s Hne). cbv zeta.
  rewrite Hiso, Hmon. cbn [bind try_except_value_type].
  unfold index. rewrite H20, H23.
  assert ((len (strip s) >? 20) = true) as -> by (apply Z.gtb_lt; lia).
  assert ((len (strip s) >? 25) = true) as -> by (apply Z.gtb_lt; lia).
  assert ((len (strip s) >=? 26) = true) as ->
    by (rewrite Z.geb_leb; apply Z.leb_le; lia).
  cbn [bind].
  assert (contains (py "-+") sign = true) as ->
    by (destruct Hsign as [-> | ->]; reflexivity).
  cbn [andb]. reflexivity.
Qed.

End DateForms.

(* ===================================================================== *)
(** ** These statements on concrete inputs *)
(* ===================================================================== *)

Definition three_articles : list (pystr * pyval) :=
  [ (py "generated_at", VStr (py "2026-02-02T02:30:50-05:00"));
    (py "articles", VList [good_article; raw_article; VDict []]) ].

Lemma three_articles_mappings :
  Forall (fun r => is_dict r = true) (articles_of three_articles).
Proof. repeat constructor. Qed.

Lemma scalar_field_present_on_number :
  let d := [ (py "url", VInt 123) ] in
  lookup_or_none d (py "url") = VInt 123
  /\ @_is_present example_runtime (VDict d) (py "url") = Ok true.
Proof.
  cbv zeta. split; [reflexivity|].
  refine (proj1 (@scalar_field_present example_runtime
                   [ (py "url", VInt 123) ] (py "url") (VInt 123) _ eq_refl)).
  left. now exists 123.
Defined.

Lemma validate_error_counts_on_three :
  Forall (fun r => is_dict r = true) (articles_of three_articles)
  /\ exists report,
       @validate example_runtime (VDict three_articles) = Ok report
       /\ counter_get (error_counts report) (py "missing_title") = 1
       /\ counter_get (error_counts report) (py "invalid_url") = 1
       /\ counter_get (error_counts report) (py "invalid_record") = 0.
Proof.
  split; [exact three_articles_mappings|].
  destruct (@validate_error_counts example_runtime three_articles
              three_articles_mappings) as (report & E & Hc & _).
  exists report. split; [exact E|].
  rewrite !Hc. repeat split; reflexivity.
Defined.

Lemma validate_valid_count_on_three :
  Forall (fun r => is_dict r = true) (articles_of three_articles)
  /\ exists report,
       @validate example_runtime (VDict three_articles) = Ok report
       /\ valid_count report = 1 /\ invalid_count report = 2.
Proof.
  split; [exact three_articles_mappings|].
  destruct (@validate_valid_count example_runtime three_articles
              three_articles_mappings) as (report & E & Hv & Hi & _).
  exists report. split; [exact E|].
  rewrite Hv, Hi. split; reflexivity.
Defined.

Lemma validate_no_articles_on_empty :
  articles_of [ (py "articles", VStr (py "none")) ] = []
  /\ @validate example_runtime (VDict [ (py "articles", VStr (py "none")) ])
     = Ok (mk_report 0 0 0 0 0 0 0 (VInt 0) (VInt 0) (VInt 0) (VInt 0) []).
Proof.
  split; [reflexivity|].
  apply (@validate_no_articles example_runtime). reflexivity.
Defined.

Lemma save_valid_only_count_on_three :
  Forall (fun r => is_dict r = true) (articles_of three_articles)
  /\ exists g kept line report,
       @save_valid_only example_runtime (VDict three_articles) (py "out.json")
       = Ok (VDict [ (py "generated_at", g); (py "articles", VList kept) ],
             line)
       /\ @validate example_runtime (VDict three_articles) = Ok report
       /\ len kept = valid_count report.
Proof.
  split; [exact three_articles_mappings|].
  apply (@save_valid_only_count example_runtime three_articles
           (py "out.json") three_articles_mappings).
Defined.

Example save_valid_only_on_three :
  @save_valid_only example_runtime
    (VDict [ (py "articles", VList [VInt 7; good_article; raw_article]) ])
    (py "out.json")
  = Ok (VDict [ (py "generated_at", VStr []);
                (py "articles", VList [good_article]) ],
        py "Saved 1 valid records to out.json").
Proof. vm_compute. reflexivity. Qed.

Lemma clean_then_validate_on_three :
  Forall (fun r => is_dict r = true) (articles_of three_articles)
  /\ @batch_capped example_runtime three_articles = true
  /\ exists out report,
       @clean example_runtime (VDict three_articles) = Ok out
       /\ @validate example_runtime out = Ok report
       /\ total_records report = 3.
Proof.
  split; [exact three_articles_mappings|]. split; [reflexivity|].
  destruct (@clean_then_validate example_runtime three_articles
              three_articles_mappings eq_refl)
    as (out & report & E & Ev & Ht & _).
  exists out, report. split; [exact E|]. split; [exact Ev | exact Ht].
Defined.

Lemma month_name_offset_copied_on_bare :
  let s := py " 2026-Feb-01T13:28:27+0530 and more " in
  (@datetime_fromisoformat example_runtime
     (replace 90 (py "+00:00") (strip s)) = Raise ValueError
   /\ 26 <= len (strip s)
   /\ nth_error (strip s) 20 = Some 43
   /\ nth_error (strip s) 23 = Some 51)
  /\ @parse_date_to_iso example_runtime (VStr s)
     = Ok (py "2026-02-01T13:28:27+05:30").
Proof.
  cbv zeta. split.
  - repeat split; try reflexivity. discriminate.
  - apply (@month_name_offset_copied example_runtime
             (py " 2026-Feb-01T13:28:27+0530 and more ")
             (mk_datetime 2026 2 1 13 28 27 0 None) 43 51).
    + reflexivity.
    + reflexivity.
    + discriminate.
    + reflexivity.
    + now left.
    + reflexivity.
Defined.
